(** * 5470 ledger core: a shallow embedding of the Python sources

    The repository holds several independent chain implementations:
    - [blockchain.py]                     ([Blockchain5470], module [B5470] below),
    - [core/node.py]                      ([CoreNode],       module [Node]),
    - [core/blockchain.py]                ([RealBlockchain], module [Real]),
    - [blockchain_5470_synced_ai_zk.py]   ([Blockchain],     module [Synced]).

    Each module translates the classes of one file: dataclasses become
    records, [self] becomes an explicit state record that every method takes
    and returns, Python dictionaries become [gmap]s, and the unbounded
    proof-of-work loops take a fuel argument.  SHA-256 / SHA3-256 and the
    textual serialisations fed to them are not re-implemented: they are fields
    of a type class, so every theorem holds for whatever these functions
    are. *)

From Stdlib Require Import ZArith QArith Qpower String Ascii List Bool Lia.
From stdpp Require Import gmap strings.
From Equations Require Import Equations.
Import ListNotations.

Open Scope string_scope.
Open Scope Z_scope.

(** * Hexadecimal digests *)

Module Hex.

(** Value of one hexadecimal digit, as [int(c, 16)] reads it. *)
Definition digit_value (c : ascii) : option Z :=
  let n := Z.of_nat (nat_of_ascii c) in
  if (48 <=? n) && (n <=? 57) then Some (n - 48)
  else if (97 <=? n) && (n <=? 102) then Some (n - 87)
  else if (65 <=? n) && (n <=? 70) then Some (n - 55)
  else None.

Definition is_hex (c : ascii) : bool :=
  match digit_value c with Some _ => true | None => false end.

Fixpoint all_hex (s : string) : bool :=
  match s with
  | EmptyString => true
  | String c s' => is_hex c && all_hex s'
  end.

(** What [hashlib.*.hexdigest()] returns for a 256-bit hash: 64 hex digits. *)
Definition is_digest (s : string) : bool :=
  (String.length s =? 64)%nat && all_hex s.

(** [int(s, 16)] on a string of hexadecimal digits (the only strings the
    sources pass to it are hexdigests).  Most significant digit first. *)
Fixpoint value_from (acc : Z) (s : string) : Z :=
  match s with
  | EmptyString => acc
  | String c s' =>
      value_from (16 * acc + match digit_value c with Some d => d | None => 0 end) s'
  end.

Definition int16 (s : string) : Z := value_from 0 s.

(** ["0" * n]; a negative count gives the empty string, as in Python. *)
Fixpoint zeros_nat (n : nat) : string :=
  match n with
  | O => EmptyString
  | S n' => String "0"%char (zeros_nat n')
  end.

Definition zeros (n : Z) : string := zeros_nat (Z.to_nat n).

(** [s.startswith(p)] *)
Definition startswith (s p : string) : bool := String.prefix p s.

End Hex.

(** * Python results

    A method either returns a value or raises.  The only exception that the
    modelled paths can raise by themselves is [IndexError] ([self.chain[-1]]
    on an empty list) and the [ValueError] of a negative shift count. *)

Inductive pyresult (A : Type) : Type :=
| Returned (a : A)
| Raised (exn : string).
Arguments Returned {A} a.
Arguments Raised {A} exn.

(** Comparison of Python numbers: [a < b] on exact values. *)
Definition Qltb (a b : Q) : bool := negb (Qle_bool b a).

(** Python's [2 ** e] for an integer [e]: an integer when [e >= 0], otherwise
    the double [2.0 ** e], which is the exact power of two down to the
    smallest subnormal [2 ** -1074] and underflows to [0.0] below it. *)
Definition pow2 (e : Z) : Q :=
  if 0 <=? e then inject_Z (2 ^ e)
  else if -1074 <=? e then Qpower 2 e
  else 0%Q.

(** [l.remove(x)] guarded by [x in l]: drops the first element equal to [x]. *)
Fixpoint remove_first {A : Type} (eqb : A -> A -> bool) (x : A) (l : list A) : list A :=
  match l with
  | [] => []
  | y :: l' => if eqb y x then l' else y :: remove_first eqb x l'
  end.

(** [for x in xs: if x in l: l.remove(x)] *)
Definition remove_each {A : Type} (eqb : A -> A -> bool) (xs l : list A) : list A :=
  fold_left (fun acc x => remove_first eqb x acc) xs l.

(** [R c[i-1] c[i]] for every index [i > 0] of the list [c]. *)
Definition adjacent {A : Type} (R : A -> A -> Prop) (c : list A) : Prop :=
  forall (i : nat) (p b : A),
    nth_error c i = Some p -> nth_error c (S i) = Some b -> R p b.

(** * The Merkle loop shared by [blockchain.py] and [core/blockchain.py]

    Both [Block.calculate_merkle_root] methods run the same loop over the
    list of transaction hashes; they differ only in where the leaf hashes
    come from. *)

Module Merkle.
Section Loop.

(** [hashlib.sha256(s.encode()).hexdigest()] *)
Variable sha256_hex : string -> string.

(** [for i in range(0, len(tx_hashes), 2): new_level.append(H(tx_hashes[i] +
    tx_hashes[i + 1]))].  The loop only ever runs on an even number of
    hashes; on a dangling last element Python would raise [IndexError]. *)
Fixpoint pair_level (hs : list string) : list string :=
  match hs with
  | a :: b :: rest => sha256_hex (a ++ b) :: pair_level rest
  | _ => []
  end.

(** [if len(tx_hashes) % 2 == 1: tx_hashes.append(tx_hashes[-1])] *)
Definition pad_odd (hs : list string) : list string :=
  if Nat.odd (length hs) then (hs ++ [List.last hs ""])%list else hs.

(** One iteration of the [while] body. *)
Definition next_level (hs : list string) : list string :=
  pair_level (pad_odd hs).

(** [while len(tx_hashes) > 1: ...] *)
Equations? reduce (hs : list string) : list string by wf (length hs) lt :=
  reduce [] := [];
  reduce [h] := [h];
  reduce (a :: b :: rest) := reduce (next_level (a :: b :: rest)).
Proof.
  assert (Hpair : forall n l, (length l <= n)%nat ->
                              (2 * length (pair_level l) <= length l)%nat).
  { induction n as [|n IH]; intros [|x [|y l]] Hl; cbn in *; try lia.
    specialize (IH l ltac:(lia)). lia. }
  unfold next_level, pad_odd.
  destruct (Nat.odd _).
  - specialize (Hpair _ ((a :: b :: rest) ++ [List.last (a :: b :: rest) ""])%list
                      (Nat.le_refl _)).
    rewrite length_app in Hpair. cbn [length] in *. lia.
  - specialize (Hpair _ (a :: b :: rest) (Nat.le_refl _)). cbn [length] in *. lia.
Qed.

(** The whole method, given the leaf hashes: the all-zero sentinel for an
    empty block, otherwise [tx_hashes[0]] after the loop. *)
Definition root (leaves : list string) : string :=
  match leaves with
  | [] => Hex.zeros 64
  | _ => match reduce leaves with
         | h :: _ => h
         | [] => ""
         end
  end.

End Loop.
End Merkle.

(** * [blockchain.py]: class [Blockchain5470] *)

Module B5470.

(** An entry of [inputs] / [outputs]: [{"address": a, "amount": x}]. *)
Record TxIO := {
  io_address : string;
  io_amount : Q
}.

Record Transaction := {
  tx_id : string;
  inputs : list TxIO;
  outputs : list TxIO;
  amount : Q;
  fee : Q;
  tx_timestamp : Q;
  signature : string;
  public_key : string;
  is_coinbase : bool
}.

Record BlockHeader := {
  version : Z;
  prev_hash : string;
  merkle_root : string;
  timestamp : Q;
  n_bits : Z;
  nonce : Z;
  height : Z
}.

Record Block := {
  header : BlockHeader;
  transactions : list Transaction;
  work : Z
}.

(** What the module imports and does not define: SHA-256, the sorted-key
    JSON text of the hashed fields, and ECDSA verification. *)
Class Crypto := {
  sha256_hex : string -> string;
  sha256_hex_digest : forall s, Hex.is_digest (sha256_hex s) = true;
  json_dumps_tx : list TxIO -> list TxIO -> Q -> Q -> Q -> string -> string;
  json_dumps_header : Z -> string -> string -> Q -> Z -> Z -> Z -> string;
  ecdsa_verify : string -> string -> string -> bool
}.

(** Dataclass equality ([==], used by [in] and [list.remove]). *)
Definition TxIO_eqb (a b : TxIO) : bool :=
  String.eqb (io_address a) (io_address b) && Qeq_bool (io_amount a) (io_amount b).

Fixpoint list_eqb {A : Type} (eqb : A -> A -> bool) (l1 l2 : list A) : bool :=
  match l1, l2 with
  | [], [] => true
  | x :: l1', y :: l2' => eqb x y && list_eqb eqb l1' l2'
  | _, _ => false
  end.

Definition Transaction_eqb (a b : Transaction) : bool :=
  String.eqb (tx_id a) (tx_id b)
  && list_eqb TxIO_eqb (inputs a) (inputs b)
  && list_eqb TxIO_eqb (outputs a) (outputs b)
  && Qeq_bool (amount a) (amount b)
  && Qeq_bool (fee a) (fee b)
  && Qeq_bool (tx_timestamp a) (tx_timestamp b)
  && String.eqb (signature a) (signature b)
  && String.eqb (public_key a) (public_key b)
  && Bool.eqb (is_coinbase a) (is_coinbase b).

Record Blockchain5470 := {
  chain : list Block;
  mempool : list Transaction;
  difficulty_target : Z;
  block_time_target : Z;
  best_work : Z;
  mining : bool
}.

Definition set_nonce (h : BlockHeader) (n : Z) : BlockHeader :=
  {| version := version h; prev_hash := prev_hash h; merkle_root := merkle_root h;
     timestamp := timestamp h; n_bits := n_bits h; nonce := n; height := height h |}.

Definition set_merkle_root (h : BlockHeader) (r : string) : BlockHeader :=
  {| version := version h; prev_hash := prev_hash h; merkle_root := r;
     timestamp := timestamp h; n_bits := n_bits h; nonce := nonce h; height := height h |}.

Definition set_chain (s : Blockchain5470) (c : list Block) (w : Z) : Blockchain5470 :=
  {| chain := c; mempool := mempool s; difficulty_target := difficulty_target s;
     block_time_target := block_time_target s; best_work := w; mining := mining s |}.

Definition set_mempool (s : Blockchain5470) (m : list Transaction) : Blockchain5470 :=
  {| chain := chain s; mempool := m; difficulty_target := difficulty_target s;
     block_time_target := block_time_target s; best_work := best_work s;
     mining := mining s |}.

Definition set_difficulty_target (s : Blockchain5470) (d : Z) : Blockchain5470 :=
  {| chain := chain s; mempool := mempool s; difficulty_target := d;
     block_time_target := block_time_target s; best_work := best_work s;
     mining := mining s |}.

Definition set_mining (s : Blockchain5470) (m : bool) : Blockchain5470 :=
  {| chain := chain s; mempool := mempool s; difficulty_target := difficulty_target s;
     block_time_target := block_time_target s; best_work := best_work s;
     mining := m |}.

Section Methods.
Context `{Crypto}.

(** [Transaction.get_hash] *)
Definition tx_get_hash (tx : Transaction) : string :=
  sha256_hex (json_dumps_tx (inputs tx) (outputs tx) (amount tx) (fee tx)
                            (tx_timestamp tx) (public_key tx)).

(** [Transaction.verify_signature]: any exception is caught and gives
    [False]. *)
Definition verify_signature (tx : Transaction) : bool :=
  ecdsa_verify (public_key tx) (signature tx) (tx_get_hash tx).

(** [BlockHeader.get_hash] *)
Definition get_hash (h : BlockHeader) : string :=
  sha256_hex (json_dumps_header (version h) (prev_hash h) (merkle_root h)
                                (timestamp h) (n_bits h) (nonce h) (height h)).

(** [Block.calculate_merkle_root] *)
Definition calculate_merkle_root (txs : list Transaction) : string :=
  Merkle.root sha256_hex (map tx_get_hash txs).

(** The third gate of [verify_block]:
    [int(block_hash, 16) >= 2 ** (256 - n_bits)] means failure. *)
Definition pow_ok (h : BlockHeader) : bool :=
  Qltb (inject_Z (Hex.int16 (get_hash h))) (pow2 (256 - n_bits h)).

(** [Block.verify_block] *)
Definition verify_block (b : Block) : bool :=
  if negb (String.eqb (merkle_root (header b)) (calculate_merkle_root (transactions b)))
  then false
  else if negb (forallb (fun tx => is_coinbase tx || verify_signature tx) (transactions b))
  then false
  else if negb (pow_ok (header b))
  then false
  else true.

Definition genesis_tx : Transaction :=
  {| tx_id := "genesis_tx"; inputs := [];
     outputs := [ {| io_address := "genesis"; io_amount := 0 |} ];
     amount := 0; fee := 0; tx_timestamp := 1640995200;
     signature := "genesis_signature"; public_key := "genesis_public_key";
     is_coinbase := true |}.

(** [_create_genesis_block] *)
Definition genesis_block : Block :=
  {| header := {| version := 1; prev_hash := Hex.zeros 64;
                  merkle_root := calculate_merkle_root [genesis_tx];
                  timestamp := 1640995200; n_bits := 20; nonce := 0; height := 0 |};
     transactions := [genesis_tx];
     work := 1 |}.

(** [__init__] *)
Definition init : Blockchain5470 :=
  {| chain := [genesis_block]; mempool := []; difficulty_target := 20;
     block_time_target := 600; best_work := 0; mining := false |}.

(** [self.chain[-10:]] *)
Definition last10 (c : list Block) : list Block :=
  skipn (length c - 10) c.

(** [_adjust_difficulty] *)
Definition _adjust_difficulty (s : Blockchain5470) : Blockchain5470 :=
  if (length (chain s) <? 10)%nat then s
  else
    match last10 (chain s) with
    | [] => s
    | first :: _ as recent_blocks =>
        let time_diff :=
          (timestamp (header (List.last recent_blocks first))
           - timestamp (header first))%Q in
        let avg_block_time := (time_diff / 9)%Q in
        if Qltb avg_block_time (inject_Z (block_time_target s) * (1 # 2))%Q
        then set_difficulty_target s (difficulty_target s + 1)
        else if Qltb (inject_Z (block_time_target s) * 2)%Q avg_block_time
        then set_difficulty_target s (Z.max 1 (difficulty_target s - 1))
        else s
    end.

(** [_add_block_to_chain] *)
Definition _add_block_to_chain (s : Blockchain5470) (b : Block) : bool * Blockchain5470 :=
  if negb (verify_block b) then (false, s)
  else (true, _adjust_difficulty (set_chain s (chain s ++ [b]) (work b))).

(** [add_transaction_to_mempool] *)
Definition add_transaction_to_mempool (s : Blockchain5470) (tx : Transaction)
  : bool * Blockchain5470 :=
  if negb (is_coinbase tx) && negb (verify_signature tx) then (false, s)
  else (true, set_mempool s (mempool s ++ [tx])).

(** [_create_coinbase_transaction]; the two [time.time()] readings are
    arguments (the first one already formatted into the id). *)
Definition _create_coinbase_transaction (mining_address id : string) (now : Q)
  : Transaction :=
  let block_reward := 50%Q in
  {| tx_id := id; inputs := [];
     outputs := [ {| io_address := mining_address; io_amount := block_reward |} ];
     amount := block_reward; fee := 0; tx_timestamp := now;
     signature := "coinbase_signature"; public_key := "coinbase_public_key";
     is_coinbase := true |}.

(** Outcome of the [while True] search of [mine_block]. *)
Inductive search :=
| Found (h : BlockHeader)
| Stopped
| OutOfFuel.

(** The search loop.  [seen k] is the value of [self.mining] read after the
    [k]-th failed attempt (another thread may clear it); [fuel] bounds the
    number of attempts of the model, the source has no such bound. *)
Fixpoint pow_loop (fuel : nat) (target : Q) (seen : nat -> bool) (k : nat)
         (h : BlockHeader) : search :=
  match fuel with
  | O => OutOfFuel
  | S fuel' =>
      let h' := set_nonce h (nonce h + 1) in
      if Qltb (inject_Z (Hex.int16 (get_hash h'))) target then Found h'
      else if negb (seen k) then Stopped
      else pow_loop fuel' target seen (S k) h'
  end.

(** What one call of [mine_block] reads from outside the object. *)
Record MiningRun := {
  coinbase_id : string;
  coinbase_time : Q;
  header_time : Q;
  mining_seen : nat -> bool
}.

(** [mine_block].  [None] is the model running out of fuel; otherwise the
    call raises ([self.chain[-1]] on an empty chain) or returns
    [Optional[Block]] together with the new state. *)
Definition mine_block (fuel : nat) (r : MiningRun) (s : Blockchain5470)
           (mining_address : string)
  : option (pyresult (option Block * Blockchain5470)) :=
  let coinbase_tx :=
    _create_coinbase_transaction mining_address (coinbase_id r) (coinbase_time r) in
  let txs := coinbase_tx :: firstn 10 (mempool s) in
  match List.last (map Some (chain s)) None with
  | None => Some (Raised "IndexError")
  | Some latest_block =>
      let header0 :=
        {| version := 1; prev_hash := get_hash (header latest_block);
           merkle_root := ""; timestamp := header_time r;
           n_bits := difficulty_target s; nonce := 0;
           height := height (header latest_block) + 1 |} in
      let header1 := set_merkle_root header0 (calculate_merkle_root txs) in
      let target := pow2 (256 - difficulty_target s) in
      match pow_loop fuel target (mining_seen r) 0 header1 with
      | OutOfFuel => None
      | Stopped => Some (Returned (None, s))
      | Found h =>
          let new_block :=
            {| header := h; transactions := txs;
               work := work latest_block + 2 ^ difficulty_target s |} in
          let s1 := snd (_add_block_to_chain s new_block) in
          let s2 := set_mempool s1 (remove_each Transaction_eqb (tl txs) (mempool s1)) in
          Some (Returned (Some new_block, s2))
      end
  end.

(** [start_mining] / [stop_mining], as far as the object's fields go. *)
Definition start_mining (s : Blockchain5470) : Blockchain5470 := set_mining s true.
Definition stop_mining (s : Blockchain5470) : Blockchain5470 := set_mining s false.

(** One call of a public method. *)
Inductive step : Blockchain5470 -> Blockchain5470 -> Prop :=
| step_submit s tx : step s (snd (add_transaction_to_mempool s tx))
| step_mine s fuel r addr res s' :
    mine_block fuel r s addr = Some (Returned (res, s')) -> step s s'
| step_start s : step s (start_mining s)
| step_stop s : step s (stop_mining s).

(** States the class reaches through its public methods. *)
Definition reachable (s : Blockchain5470) : Prop := rtc step init s.

(** States obtained when [_add_block_to_chain] is handed arbitrary
    candidate blocks. *)
Definition accept_all (s : Blockchain5470) (bs : list Block) : Blockchain5470 :=
  fold_left (fun st b => snd (_add_block_to_chain st b)) bs s.

(** Linkage of two neighbouring blocks, with the predecessor's hash
    recomputed from its header. *)
Definition links_to (p b : Block) : Prop :=
  prev_hash (header b) = get_hash (header p)
  /\ height (header b) = height (header p) + 1.

(** [chain[i]] is linked to [chain[i-1]] for every [i > 0]. *)
Definition linked (c : list Block) : Prop := adjacent links_to c.



End Methods.

End B5470.

(** * [core/node.py]: class [CoreNode] *)

Module Node.

Record Transaction := {
  from_address : string;
  to_address : string;
  amount : Z;
  tx_timestamp : Q;
  tx_nonce : Z;
  signature : string;
  tx_hash : string
}.

Record Block := {
  index : Z;
  transactions : list Transaction;
  previous_hash : string;
  timestamp : Q;
  nonce : Z;
  hash : string
}.

(** SHA-256 and the [str()] of the numbers interpolated into the hashed
    f-strings. *)
Class Crypto := {
  sha256_hex : string -> string;
  sha256_hex_digest : forall s, Hex.is_digest (sha256_hex s) = true;
  str_int : Z -> string;
  str_float : Q -> string
}.

Definition Transaction_eqb (a b : Transaction) : bool :=
  String.eqb (from_address a) (from_address b)
  && String.eqb (to_address a) (to_address b)
  && (amount a =? amount b)
  && Qeq_bool (tx_timestamp a) (tx_timestamp b)
  && (tx_nonce a =? tx_nonce b)
  && String.eqb (signature a) (signature b)
  && String.eqb (tx_hash a) (tx_hash b).

Record CoreNode := {
  blockchain : list Block;
  mempool : list Transaction;
  utxo_set : gmap string (list Transaction);
  wallet_address : string;
  is_mining : bool
}.

Definition set_blockchain (s : CoreNode) (c : list Block) : CoreNode :=
  {| blockchain := c; mempool := mempool s; utxo_set := utxo_set s;
     wallet_address := wallet_address s; is_mining := is_mining s |}.

Definition set_mempool (s : CoreNode) (m : list Transaction) : CoreNode :=
  {| blockchain := blockchain s; mempool := m; utxo_set := utxo_set s;
     wallet_address := wallet_address s; is_mining := is_mining s |}.

Definition set_utxo_set (s : CoreNode) (u : gmap string (list Transaction)) : CoreNode :=
  {| blockchain := blockchain s; mempool := mempool s; utxo_set := u;
     wallet_address := wallet_address s; is_mining := is_mining s |}.

Definition set_is_mining (s : CoreNode) (m : bool) : CoreNode :=
  {| blockchain := blockchain s; mempool := mempool s; utxo_set := utxo_set s;
     wallet_address := wallet_address s; is_mining := m |}.

Definition set_hash (b : Block) (n : Z) (h : string) : Block :=
  {| index := index b; transactions := transactions b;
     previous_hash := previous_hash b; timestamp := timestamp b;
     nonce := n; hash := h |}.

Section Methods.
Context `{Crypto}.

(** [Transaction.calculate_hash] *)
Definition tx_calculate_hash (from to : string) (amt : Z) (ts : Q) (n : Z) : string :=
  sha256_hex (from ++ to ++ str_int amt ++ str_float ts ++ str_int n).

(** The dataclass constructor with its [__post_init__]: an empty [tx_hash]
    is replaced by the computed one. *)
Definition mkTransaction (from to : string) (amt : Z) (ts : Q) (n : Z)
           (sig txh : string) : Transaction :=
  {| from_address := from; to_address := to; amount := amt; tx_timestamp := ts;
     tx_nonce := n; signature := sig;
     tx_hash := if String.eqb txh "" then tx_calculate_hash from to amt ts n
                else txh |}.

(** [Block.calculate_hash] *)
Definition block_hash_of (idx : Z) (txs : list Transaction) (prev : string)
           (ts : Q) (n : Z) : string :=
  sha256_hex (str_int idx ++ String.concat "" (map tx_hash txs) ++ prev
              ++ str_float ts ++ str_int n).

Definition calculate_hash (b : Block) : string :=
  block_hash_of (index b) (transactions b) (previous_hash b) (timestamp b) (nonce b).

(** The [Block] constructor with its [__post_init__]. *)
Definition mkBlock (idx : Z) (txs : list Transaction) (prev : string) (ts : Q)
           (n : Z) (h : string) : Block :=
  {| index := idx; transactions := txs; previous_hash := prev; timestamp := ts;
     nonce := n;
     hash := if String.eqb h "" then block_hash_of idx txs prev ts n else h |}.

(** [create_genesis_block]; the two clock readings are arguments. *)
Definition create_genesis_block (s : CoreNode) (now_tx now_block : Q) : CoreNode :=
  match blockchain s with
  | [] =>
      let genesis_tx :=
        mkTransaction "genesis" (wallet_address s) (50 * 100000000) now_tx 0 "" "" in
      let genesis_block := mkBlock 0 [genesis_tx] (Hex.zeros 64) now_block 0 "" in
      set_blockchain s (blockchain s ++ [genesis_block])
  | _ :: _ => s
  end.

(** [__init__], for the wallet address that [generate_address] drew. *)
Definition init (address : string) (now_tx now_block : Q) : CoreNode :=
  create_genesis_block
    {| blockchain := []; mempool := []; utxo_set := ∅;
       wallet_address := address; is_mining := false |}
    now_tx now_block.

(** [validate_transaction] *)
Definition validate_transaction (tx : Transaction) : bool :=
  (0 <? amount tx)
  && negb (String.eqb (from_address tx) (to_address tx))
  && (String.length (tx_hash tx) =? 64)%nat.

(** [validate_block] *)
Definition validate_block (s : CoreNode) (b : Block) : bool :=
  match blockchain s with
  | [] => index b =? 0
  | first :: rest =>
      let last_block := List.last rest first in
      (index b =? index last_block + 1)
      && String.eqb (previous_hash b) (hash last_block)
      && Hex.startswith (hash b) "0000"
  end.

(** The loop body of [update_utxo_set]: the spent side is a [pass]. *)
Definition utxo_add (u : gmap string (list Transaction)) (tx : Transaction)
  : gmap string (list Transaction) :=
  <[ to_address tx := (default [] (u !! to_address tx) ++ [tx])%list ]> u.

(** [update_utxo_set] *)
Definition update_utxo_set (s : CoreNode) (b : Block) : CoreNode :=
  set_utxo_set s (fold_left utxo_add (transactions b) (utxo_set s)).

(** [add_block] ([save_blockchain] only writes a file). *)
Definition add_block (s : CoreNode) (b : Block) : CoreNode :=
  if validate_block s b
  then update_utxo_set (set_blockchain s (blockchain s ++ [b])) b
  else s.

(** [while not new_block.hash.startswith("0000"): ...] with a fuel bound. *)
Fixpoint pow_loop (fuel : nat) (b : Block) : option Block :=
  if Hex.startswith (hash b) "0000" then Some b
  else match fuel with
       | O => None
       | S fuel' =>
           let n := nonce b + 1 in
           pow_loop fuel'
             (set_hash b n (block_hash_of (index b) (transactions b)
                                          (previous_hash b) (timestamp b) n))
       end.

(** [mine_block]: [None] when the model runs out of fuel, otherwise the
    returned [Optional[Block]] and the new state. *)
Definition mine_block (fuel : nat) (s : CoreNode) (now_tx now_block : Q)
  : option (pyresult (option Block * CoreNode)) :=
  match mempool s with
  | [] => Some (Returned (None, s))
  | _ :: _ =>
      let selected_txs := firstn 10 (mempool s) in
      let coinbase_tx :=
        mkTransaction "coinbase" (wallet_address s) (50 * 100000000) now_tx 0 "" "" in
      let txs := coinbase_tx :: selected_txs in
      match List.last (map Some (blockchain s)) None with
      | None => Some (Raised "IndexError")
      | Some tip =>
          let candidate :=
            mkBlock (Z.of_nat (length (blockchain s))) txs (hash tip) now_block 0 "" in
          match pow_loop fuel candidate with
          | None => None
          | Some new_block =>
              Some (Returned
                      (Some new_block,
                       set_mempool s (remove_each Transaction_eqb selected_txs
                                                  (mempool s))))
          end
      end
  end.

(** One round of [mining_loop]; an exception inside the [try] is logged and
    leaves the node as it was when it was raised. *)
Definition mining_round (fuel : nat) (s : CoreNode) (now_tx now_block : Q)
  : option CoreNode :=
  if is_mining s && negb (match mempool s with [] => true | _ => false end) then
    match mine_block fuel s now_tx now_block with
    | None => None
    | Some (Raised _) => Some s
    | Some (Returned (None, s')) => Some s'
    | Some (Returned (Some new_block, s')) => Some (add_block s' new_block)
    end
  else Some s.

(** [process_peer_message], command [MSG_TX] (the broadcast only sends). *)
Definition on_tx (s : CoreNode) (tx : Transaction) : CoreNode :=
  if validate_transaction tx then set_mempool s (mempool s ++ [tx]) else s.

(** [process_peer_message], command [MSG_BLOCKS]. *)
Definition on_blocks (s : CoreNode) (blocks : list Block) : CoreNode :=
  fold_left (fun st b => if validate_block st b then add_block st b else st) blocks s.

(** [start_mining] / [stop_mining] *)
Definition start_mining (s : CoreNode) : CoreNode := set_is_mining s true.
Definition stop_mining (s : CoreNode) : CoreNode := set_is_mining s false.

(** States of a node. *)
Inductive reachable : CoreNode -> Prop :=
| reach_init address t1 t2 : reachable (init address t1 t2)
| reach_add_block s b : reachable s -> reachable (add_block s b)
| reach_tx s tx : reachable s -> reachable (on_tx s tx)
| reach_blocks s bs : reachable s -> reachable (on_blocks s bs)
| reach_round s fuel t1 t2 s' :
    reachable s -> mining_round fuel s t1 t2 = Some s' -> reachable s'
| reach_start s : reachable s -> reachable (start_mining s)
| reach_stop s : reachable s -> reachable (stop_mining s).

(** Linkage of neighbouring blocks through the stored [hash] field. *)
Definition links_to (p b : Block) : Prop :=
  previous_hash b = hash p /\ index b = index p + 1.

Definition linked (c : list Block) : Prop := adjacent links_to c.

(** [self.blockchain[-1].hash], the value a peer puts in [previous_hash]. *)
Definition tip_hash (s : CoreNode) : string :=
  match List.last (map Some (blockchain s)) None with
  | Some b => hash b
  | None => ""
  end.

(** The hashes of the transactions of a block and of the pool. *)
Definition block_tx_hashes (b : Block) : list string := map tx_hash (transactions b).
Definition mempool_tx_hashes (s : CoreNode) : list string := map tx_hash (mempool s).

End Methods.

End Node.

(** * [core/blockchain.py]: class [RealBlockchain]

    Amounts and timestamps are Python floats there; they are modelled by
    exact rationals. *)

Module Real.

Record Transaction := {
  from_address : string;
  to_address : string;
  amount : Q;
  tx_timestamp : Q;
  signature : string;
  tx_hash : string
}.

Record Block := {
  index : Z;
  timestamp : Q;
  transactions : list Transaction;
  previous_hash : string;
  nonce : Z;
  hash : string;
  merkle_root : string;
  difficulty : Z
}.

Class Crypto := {
  sha256_hex : string -> string;
  sha256_hex_digest : forall s, Hex.is_digest (sha256_hex s) = true;
  str_int : Z -> string;
  str_float : Q -> string
}.

Record RealBlockchain := {
  chain : list Block;
  pending_transactions : list Transaction;
  mining_reward : Q;
  chain_difficulty : Z;
  balances : gmap string Q
}.

Definition set_tx_hash (tx : Transaction) (h : string) : Transaction :=
  {| from_address := from_address tx; to_address := to_address tx;
     amount := amount tx; tx_timestamp := tx_timestamp tx;
     signature := signature tx; tx_hash := h |}.

Definition set_pow (b : Block) (root : string) (n : Z) (h : string) : Block :=
  {| index := index b; timestamp := timestamp b; transactions := transactions b;
     previous_hash := previous_hash b; nonce := n; hash := h;
     merkle_root := root; difficulty := difficulty b |}.

Definition set_chain (s : RealBlockchain) (c : list Block) : RealBlockchain :=
  {| chain := c; pending_transactions := pending_transactions s;
     mining_reward := mining_reward s; chain_difficulty := chain_difficulty s;
     balances := balances s |}.

Definition set_pending (s : RealBlockchain) (p : list Transaction) : RealBlockchain :=
  {| chain := chain s; pending_transactions := p;
     mining_reward := mining_reward s; chain_difficulty := chain_difficulty s;
     balances := balances s |}.

Definition set_balances (s : RealBlockchain) (m : gmap string Q) : RealBlockchain :=
  {| chain := chain s; pending_transactions := pending_transactions s;
     mining_reward := mining_reward s; chain_difficulty := chain_difficulty s;
     balances := m |}.

Section Methods.
Context `{Crypto}.

(** [Transaction.calculate_hash] *)
Definition tx_calculate_hash (tx : Transaction) : string :=
  sha256_hex (from_address tx ++ to_address tx ++ str_float (amount tx)
              ++ str_float (tx_timestamp tx)).

(** [Block.calculate_merkle_root]: the leaves are the stored [tx_hash]es. *)
Definition calculate_merkle_root (b : Block) : string :=
  Merkle.root sha256_hex (map tx_hash (transactions b)).

(** [Block.calculate_hash] *)
Definition calculate_hash (b : Block) : string :=
  sha256_hex (str_int (index b) ++ str_float (timestamp b) ++ previous_hash b
              ++ merkle_root b ++ str_int (nonce b) ++ str_int (difficulty b)).

(** The [while True] of [Block.mine_block], bounded by fuel. *)
Fixpoint pow_loop (fuel : nat) (b : Block) : option Block :=
  match fuel with
  | O => None
  | S fuel' =>
      let b' := set_pow b (merkle_root b) (nonce b) (calculate_hash b) in
      if Hex.startswith (hash b') (Hex.zeros (difficulty b)) then Some b'
      else pow_loop fuel' (set_pow b' (merkle_root b') (nonce b' + 1) (hash b'))
  end.

(** [Block.mine_block] *)
Definition block_mine (fuel : nat) (b : Block) : option Block :=
  pow_loop fuel (set_pow b (calculate_merkle_root b) (nonce b) (hash b)).

(** [get_balance] *)
Definition get_balance (s : RealBlockchain) (address : string) : Q :=
  default 0%Q (balances s !! address).

(** [verify_transaction] *)
Definition verify_transaction (tx : Transaction) : bool :=
  String.eqb (tx_hash tx) (tx_calculate_hash tx).

(** [add_transaction] *)
Definition add_transaction (s : RealBlockchain) (tx : Transaction)
  : bool * RealBlockchain :=
  if negb (String.eqb (from_address tx) "0") && negb (verify_transaction tx)
  then (false, s)
  else if negb (String.eqb (from_address tx) "0")
          && Qltb (get_balance s (from_address tx)) (amount tx)
  then (false, s)
  else (true, set_pending s (pending_transactions s
                             ++ [set_tx_hash tx (tx_calculate_hash tx)])).

(** The loop body of [update_balances_from_block]. *)
Definition apply_tx (bal : gmap string Q) (tx : Transaction) : gmap string Q :=
  let bal1 :=
    if negb (String.eqb (from_address tx) "0")
    then <[ from_address tx :=
              (default 0 (bal !! from_address tx) - amount tx)%Q ]> bal
    else bal in
  <[ to_address tx := (default 0 (bal1 !! to_address tx) + amount tx)%Q ]> bal1.

(** [update_balances_from_block] *)
Definition update_balances_from_block (s : RealBlockchain) (b : Block) : RealBlockchain :=
  set_balances s (fold_left apply_tx (transactions b) (balances s)).

(** [mine_pending_transactions] ([save_blockchain] only writes files). *)
Definition mine_pending_transactions (fuel : nat) (s : RealBlockchain)
           (mining_reward_address : string) (now_tx now_block : Q)
  : option (pyresult (Block * RealBlockchain)) :=
  let reward0 :=
    {| from_address := "0"; to_address := mining_reward_address;
       amount := mining_reward s; tx_timestamp := now_tx;
       signature := ""; tx_hash := "" |} in
  let reward_tx := set_tx_hash reward0 (tx_calculate_hash reward0) in
  let txs := reward_tx :: pending_transactions s in
  match List.last (map Some (chain s)) None with
  | None => Some (Raised "IndexError")
  | Some latest =>
      let candidate :=
        {| index := Z.of_nat (length (chain s)); timestamp := now_block;
           transactions := txs; previous_hash := hash latest; nonce := 0;
           hash := ""; merkle_root := ""; difficulty := chain_difficulty s |} in
      match block_mine fuel candidate with
      | None => None
      | Some new_block =>
          let s1 := set_chain s (chain s ++ [new_block]) in
          let s2 := update_balances_from_block s1 new_block in
          Some (Returned (new_block, set_pending s2 []))
      end
  end.

(** [create_genesis_block] *)
Definition create_genesis_block (fuel : nat) (s : RealBlockchain) (now : Q)
  : option RealBlockchain :=
  let candidate :=
    {| index := 0; timestamp := now; transactions := []; previous_hash := "0";
       nonce := 0; hash := ""; merkle_root := "";
       difficulty := chain_difficulty s |} in
  match block_mine fuel candidate with
  | None => None
  | Some genesis_block => Some (set_chain s (chain s ++ [genesis_block]))
  end.

(** [__init__] on an empty data directory. *)
Definition init (fuel : nat) (now : Q) : option RealBlockchain :=
  create_genesis_block fuel
    {| chain := []; pending_transactions := []; mining_reward := 10;
       chain_difficulty := 4; balances := ∅ |} now.

End Methods.

End Real.

(** * [blockchain_5470_synced_ai_zk.py]: class [Blockchain] *)

Module Synced.

Record Transaction := {
  from_address : string;
  to_address : string;
  amount : Z;
  tx_nonce : Z;
  tx_timestamp : Z;
  data : string;
  chain_id : Z;
  signature : option string
}.

(** [ShieldedTransaction]: sender, recipient and amount are fixed. *)
Record ShieldedTransaction := {
  sh_nonce : Z;
  sh_timestamp : Z;
  sh_data : string;
  sh_chain_id : Z;
  sh_proof : string
}.

(** What a block's transaction list holds; [isinstance] tells them apart. *)
Inductive AnyTx :=
| Plain (tx : Transaction)
| Shielded (stx : ShieldedTransaction).

Record Block := {
  index : Z;
  transactions : list AnyTx;
  previous_hash : string;
  timestamp : Z;
  nonce : Z;
  hash : string
}.

(** The module constants read from [config.json], the SHA3-256 of the
    block's JSON text, and [int(amount * COMMISSION_RATE)]. *)
Class Config := {
  CHAIN_ID : Z;
  BLOCK_REWARD_INITIAL : Z;
  POW_DIFFICULTY : Z;
  commission : Z -> Z;
  block_digest : Z -> list AnyTx -> Z -> string -> Z -> string;
  block_digest_is_digest :
    forall i txs ts prev n, Hex.is_digest (block_digest i txs ts prev n) = true
}.

Record Blockchain := {
  chain : list Block;
  balances : gmap string Z;
  nonces : gmap string Z;
  pending_transactions : list AnyTx;
  miner_address : string
}.

Definition set_hash (b : Block) (n : Z) (h : string) : Block :=
  {| index := index b; transactions := transactions b;
     previous_hash := previous_hash b; timestamp := timestamp b;
     nonce := n; hash := h |}.

Section Methods.
Context `{Config}.

(** [Block.calculate_hash] *)
Definition calculate_hash (b : Block) : string :=
  block_digest (index b) (transactions b) (timestamp b) (previous_hash b) (nonce b).

(** [get_block_reward]; [>>] by a negative count raises [ValueError]. *)
Definition get_block_reward (height : Z) : pyresult Z :=
  let halvings := height / 210000 in
  if halvings <? 64 then
    if halvings <? 0 then Raised "ValueError"
    else Returned (Z.shiftr BLOCK_REWARD_INITIAL halvings)
  else Returned 0.

(** [tx.from_address in ("system", "genesis")] *)
Definition is_privileged (tx : Transaction) : bool :=
  String.eqb (from_address tx) "system" || String.eqb (from_address tx) "genesis".

Definition get0 (m : gmap string Z) (k : string) : Z := default 0 (m !! k).

(** The loop body shared by [add_block] and
    [_recompute_balances_and_nonces], on the pair (balances, nonces). *)
Definition apply_tx (miner : string) (st : gmap string Z * gmap string Z) (t : AnyTx)
  : gmap string Z * gmap string Z :=
  let '(bal, non) := st in
  match t with
  | Shielded _ => (bal, <[ "shielded" := get0 non "shielded" + 1 ]> non)
  | Plain tx =>
      if is_privileged tx then
        (<[ to_address tx := get0 bal (to_address tx) + amount tx ]> bal, non)
      else
        let fee := commission (amount tx) in
        let bal1 :=
          <[ from_address tx := get0 bal (from_address tx) - amount tx - fee ]> bal in
        let bal2 := <[ to_address tx := get0 bal1 (to_address tx) + amount tx ]> bal1 in
        let bal3 := <[ miner := get0 bal2 miner + fee ]> bal2 in
        (bal3, <[ from_address tx := get0 non (from_address tx) + 1 ]> non)
  end.

(** [_recompute_balances_and_nonces] *)
Definition _recompute_balances_and_nonces (s : Blockchain) : Blockchain :=
  let '(bal, non) :=
    fold_left (fun st b => fold_left (apply_tx (miner_address s)) (transactions b) st)
              (chain s) (∅, ∅) in
  {| chain := chain s; balances := bal; nonces := non;
     pending_transactions := pending_transactions s;
     miner_address := miner_address s |}.

(** [add_block] ([_save_state] only writes files). *)
Definition add_block (s : Blockchain) (block : Block) : pyresult (bool * Blockchain) :=
  match List.last (map Some (chain s)) None with
  | None => Raised "IndexError"
  | Some prev =>
      if negb (String.eqb (previous_hash block) (hash prev))
      then Returned (false, s)
      else if negb (String.eqb (hash block) (calculate_hash block))
      then Returned (false, s)
      else if negb (Hex.startswith (hash block) (Hex.zeros POW_DIFFICULTY))
      then Returned (false, s)
      else
        let '(bal, non) :=
          fold_left (apply_tx (miner_address s)) (transactions block)
                    (balances s, nonces s) in
        Returned (true,
                  {| chain := chain s ++ [block]; balances := bal; nonces := non;
                     pending_transactions := pending_transactions s;
                     miner_address := miner_address s |})
  end.

(** [proof_of_work], bounded by fuel. *)
Fixpoint proof_of_work (fuel : nat) (b : Block) : option Block :=
  match fuel with
  | O => None
  | S fuel' =>
      let b' := set_hash b (nonce b) (calculate_hash b) in
      if Hex.startswith (hash b') (Hex.zeros POW_DIFFICULTY) then Some b'
      else proof_of_work fuel' (set_hash b' (nonce b' + 1) (hash b'))
  end.

(** [create_genesis_block] followed by the [_recompute_balances_and_nonces]
    of [_load_state], when no chain file exists. *)
Definition init (miner : string) (now_tx now_block : Z) : Blockchain :=
  let gtx :=
    {| from_address := "genesis"; to_address := miner; amount := 0; tx_nonce := 0;
       tx_timestamp := now_tx; data := ""; chain_id := CHAIN_ID;
       signature := None |} in
  let g0 :=
    {| index := 0; transactions := [Plain gtx]; previous_hash := Hex.zeros 64;
       timestamp := now_block; nonce := 0; hash := "" |} in
  _recompute_balances_and_nonces
    {| chain := [set_hash g0 0 (calculate_hash g0)];
       balances := {[ miner := 0 ]}; nonces := {[ miner := 0 ]};
       pending_transactions := []; miner_address := miner |}.

(** [mine_once]: the reward it returns is the amount of the block's first
    transaction. *)
Definition mine_once (fuel : nat) (s : Blockchain) (now_tx now_block : Z)
  : option (pyresult (Z * Blockchain)) :=
  match List.last (map Some (chain s)) None with
  | None => Some (Raised "IndexError")
  | Some prev =>
      let idx := index prev + 1 in
      match get_block_reward idx with
      | Raised e => Some (Raised e)
      | Returned reward =>
          let reward_tx :=
            {| from_address := "system"; to_address := miner_address s;
               amount := reward; tx_nonce := 0; tx_timestamp := now_tx;
               data := ""; chain_id := CHAIN_ID; signature := None |} in
          let txs := Plain reward_tx :: pending_transactions s in
          let s1 :=
            {| chain := chain s; balances := balances s; nonces := nonces s;
               pending_transactions := []; miner_address := miner_address s |} in
          let newb0 :=
            {| index := idx; transactions := txs; previous_hash := hash prev;
               timestamp := now_block; nonce := 0; hash := "" |} in
          match proof_of_work fuel (set_hash newb0 0 (calculate_hash newb0)) with
          | None => None
          | Some newb =>
              match add_block s1 newb with
              | Raised e => Some (Raised e)
              | Returned (_, s2) => Some (Returned (reward, s2))
              end
          end
      end
  end.

End Methods.

End Synced.

(** * The retarget rule in the specification's words *)

Module Spec.



End Spec.

(** * A small instance of the imported functions

    Used to run the definitions on concrete inputs.  The hash only looks at
    the parity of the length of its input; the serialisers only at the
    nonce. *)

Module Toy.

Definition sha (s : string) : string :=
  if Nat.even (String.length s) then Hex.zeros 64
  else String "f"%char (Hex.zeros 63).

Definition sha_digest s : Hex.is_digest (sha s) = true :=
  match Nat.even (String.length s) as b
        return Hex.is_digest (if b then Hex.zeros 64
                              else String "f"%char (Hex.zeros 63)) = true
  with
  | true => eq_refl
  | false => eq_refl
  end.

Definition unary (n : Z) : string := Hex.zeros_nat (Z.to_nat n).

Definition b5470 : B5470.Crypto := {|
  B5470.sha256_hex := sha;
  B5470.sha256_hex_digest := sha_digest;
  B5470.json_dumps_tx := fun _ _ _ _ _ _ => "";
  B5470.json_dumps_header := fun _ _ _ _ _ n _ => unary n;
  B5470.ecdsa_verify := fun pk _ _ => String.eqb pk "good"
|}.


Definition real : Real.Crypto := {|
  Real.sha256_hex := sha;
  Real.sha256_hex_digest := sha_digest;
  Real.str_int := unary;
  Real.str_float := fun _ => ""
|}.

Definition synced : Synced.Config := {|
  Synced.CHAIN_ID := 5470;
  Synced.BLOCK_REWARD_INITIAL := 5000000000;
  Synced.POW_DIFFICULTY := 4;
  Synced.commission := fun a => a * 2 / 1000;
  Synced.block_digest := fun _ _ _ _ n => sha (unary n);
  Synced.block_digest_is_digest := fun _ _ _ _ n => sha_digest (unary n)
|}.

(** A block nobody mined: no transactions, the Merkle sentinel, target
    [n_bits = 0], and a header that names no predecessor. *)
Definition loose_block (w : Z) : B5470.Block :=
  {| B5470.header :=
       {| B5470.version := 1; B5470.prev_hash := ""; B5470.merkle_root := Hex.zeros 64;
          B5470.timestamp := 0; B5470.n_bits := 0; B5470.nonce := 0;
          B5470.height := 7 |};
     B5470.transactions := [];
     B5470.work := w |}.

Definition run : B5470.MiningRun :=
  {| B5470.coinbase_id := "coinbase_0"; B5470.coinbase_time := 0;
     B5470.header_time := 0; B5470.mining_seen := fun _ => true |}.


Definition coinbase_tagged : B5470.Transaction :=
  {| B5470.tx_id := "free money"; B5470.inputs := []; B5470.outputs := [];
     B5470.amount := 1000000; B5470.fee := 0; B5470.tx_timestamp := 0;
     B5470.signature := ""; B5470.public_key := ""; B5470.is_coinbase := true |}.

(** A transfer as a peer relays it, and a block of a peer that confirms it. *)
Definition peer_tx : Node.Transaction :=
  {| Node.from_address := "alice"; Node.to_address := "bob"; Node.amount := 5;
     Node.tx_timestamp := 0; Node.tx_nonce := 0; Node.signature := "";
     Node.tx_hash := Hex.zeros 64 |}.

Definition peer_block (prev : string) : Node.Block :=
  {| Node.index := 1; Node.transactions := [peer_tx]; Node.previous_hash := prev;
     Node.timestamp := 0; Node.nonce := 0; Node.hash := Hex.zeros 64 |}.

(** A candidate whose header does not commit to its (empty) body. *)
Definition bad_merkle_block : B5470.Block :=
  {| B5470.header :=
       {| B5470.version := 1; B5470.prev_hash := ""; B5470.merkle_root := "";
          B5470.timestamp := 0; B5470.n_bits := 0; B5470.nonce := 0;
          B5470.height := 1 |};
     B5470.transactions := [];
     B5470.work := 0 |}.

(** A candidate for the synced chain that names no known predecessor. *)
Definition stray_block : Synced.Block :=
  {| Synced.index := 1; Synced.transactions := []; Synced.previous_hash := "";
     Synced.timestamp := 0; Synced.nonce := 0; Synced.hash := "" |}.


End Toy.

(** * A double spend against [RealBlockchain]

    Alice mines one block (reward 10), submits two transfers of 8 to Bob,
    and Carol mines the next block. *)

Module Scenario.
Section DoubleSpend.
Context `{Real.Crypto}.

Definition transfer (ts : Q) : Real.Transaction :=
  let t := {| Real.from_address := "alice"; Real.to_address := "bob";
              Real.amount := 8; Real.tx_timestamp := ts;
              Real.signature := ""; Real.tx_hash := "" |} in
  Real.set_tx_hash t (Real.tx_calculate_hash t).

Definition double_spend (fuel : nat) : option (bool * bool * Real.RealBlockchain) :=
  match Real.init fuel 0 with
  | None => None
  | Some s0 =>
      match Real.mine_pending_transactions fuel s0 "alice" 1 1 with
      | Some (Returned (_, s1)) =>
          let '(ok1, s2) := Real.add_transaction s1 (transfer 2) in
          let '(ok2, s3) := Real.add_transaction s2 (transfer 3) in
          match Real.mine_pending_transactions fuel s3 "carol" 4 4 with
          | Some (Returned (_, s4)) => Some (ok1, ok2, s4)
          | _ => None
          end
      | _ => None
      end
  end.

End DoubleSpend.
End Scenario.

(** * Further methods of the four files *)

(** ** [blockchain.py]: [get_balance] and [get_network_stats] *)

Module B5470Ext.
Import B5470.

(** [for output in tx.outputs: if output.get('address') == address:
    balance += output.get('amount', 0)] *)
Definition credit_outputs (address : string) (balance : Q) (outs : list TxIO) : Q :=
  fold_left (fun bal o => if String.eqb (io_address o) address
                          then (bal + io_amount o)%Q else bal) outs balance.

(** [for inp in tx.inputs: if inp.get('address') == address:
    balance -= inp.get('amount', 0)] *)
Definition debit_inputs (address : string) (balance : Q) (ins : list TxIO) : Q :=
  fold_left (fun bal i => if String.eqb (io_address i) address
                          then (bal - io_amount i)%Q else bal) ins balance.

Definition scan_tx (address : string) (balance : Q) (tx : Transaction) : Q :=
  debit_inputs address (credit_outputs address balance (outputs tx)) (inputs tx).

Definition scan_block (address : string) (balance : Q) (b : Block) : Q :=
  fold_left (scan_tx address) (transactions b) balance.

(** [get_balance] *)
Definition get_balance (s : Blockchain5470) (address : string) : Q :=
  fold_left (scan_block address) (chain s) 0%Q.

(** The ['best_height'] entry of [get_network_stats]. *)
Definition best_height (s : Blockchain5470) : Z := Z.of_nat (length (chain s)) - 1.

Section Methods.
Context `{Crypto}.

(** Every pooled transaction is tagged coinbase or carries a signature that
    verifies: what [verify_block] asks of a block's transactions. *)
Definition pool_ok (s : Blockchain5470) : bool :=
  forallb (fun tx => is_coinbase tx || verify_signature tx) (mempool s).

End Methods.
End B5470Ext.

(** ** [core/node.py]: [get_balance] and the [MSG_GETBLOCKS] handler *)

Module NodeExt.
Import Node.

(** [get_balance]: the amounts of the transactions filed under the address
    in [utxo_set]. *)
Definition get_balance (s : CoreNode) (address : string) : Z :=
  fold_left (fun balance tx => balance + amount tx)
            (default [] (utxo_set s !! address)) 0.

(** [l[i]] for a Python integer [i]: negative indices count from the
    end. *)
Definition py_index {A : Type} (l : list A) (i : Z) : pyresult A :=
  let n := Z.of_nat (length l) in
  let j := if i <? 0 then i + n else i in
  if (j <? 0) || (n <=? j) then Raised "IndexError"
  else match nth_error l (Z.to_nat j) with
       | Some x => Returned x
       | None => Raised "IndexError"
       end.

(** [range(lo, hi)] *)
Fixpoint range_from (lo : Z) (n : nat) : list Z :=
  match n with
  | O => []
  | S n' => lo :: range_from (lo + 1) n'
  end.

Definition py_range (lo hi : Z) : list Z := range_from lo (Z.to_nat (hi - lo)).

(** [for i in idxs: blocks_data.append(self.blockchain[i])] *)
Fixpoint collect (c : list Block) (idxs : list Z) (acc : list Block)
  : pyresult (list Block) :=
  match idxs with
  | [] => Returned acc
  | i :: rest =>
      match py_index c i with
      | Returned b => collect c rest (acc ++ [b])
      | Raised e => Raised e
      end
  end.

(** The blocks the [MSG_GETBLOCKS] branch of [process_peer_message] puts
    in its answer. *)
Definition getblocks (s : CoreNode) (start_height : Z) : pyresult (list Block) :=
  collect (blockchain s)
          (py_range start_height
                    (Z.min (start_height + 500) (Z.of_nat (length (blockchain s)))))
          [].

(** The ["best_height"] a node announces in [MSG_VERSION] / [MSG_VERACK]. *)
Definition best_height (s : CoreNode) : Z := Z.of_nat (length (blockchain s)) - 1.

End NodeExt.

(** ** [core/blockchain.py]: [is_chain_valid] *)

Module RealExt.
Import Real.

Section Methods.
Context `{Crypto}.



(** One call of [add_transaction] or [mine_pending_transactions]. *)
Inductive step : RealBlockchain -> RealBlockchain -> Prop :=
| step_add s tx : step s (snd (add_transaction s tx))
| step_mine s fuel addr t1 t2 b s' :
    mine_pending_transactions fuel s addr t1 t2 = Some (Returned (b, s')) ->
    step s s'.

(** States of an instance created on an empty data directory. *)
Definition reachable (s : RealBlockchain) : Prop :=
  exists fuel now s0, init fuel now = Some s0 /\ rtc step s0 s.

End Methods.
End RealExt.

(** ** [blockchain_5470_synced_ai_zk.py]: validation, the [/tx] endpoint and
    the private notes *)

Module SyncedExt.
Import Synced.

(** The signature, proof and anomaly checks the module delegates to
    [eth_keys], [pysnark] and the autoencoder; [ai_rejects] is
    [AI_ENABLED and ai_score_tx(tx) >= ANOMALY_THRESHOLD]. *)
Class Validation := {
  ZK_ENABLED : bool;
  snark_verify : ShieldedTransaction -> bool;
  verify_signature : Transaction -> bool;
  ai_rejects : Transaction -> bool
}.

Definition set_pending (s : Blockchain) (p : list AnyTx) : Blockchain :=
  {| chain := chain s; balances := balances s; nonces := nonces s;
     pending_transactions := p; miner_address := miner_address s |}.


(** Amount created by the transactions whose sender is ["system"] or
    ["genesis"]. *)
Definition minted (txs : list AnyTx) : Z :=
  fold_left (fun acc t =>
               match t with
               | Plain tx => if is_privileged tx then acc + amount tx else acc
               | Shielded _ => acc
               end) txs 0.

(** A note of the private pool. *)
Record PrivateNote := {
  owner : string;
  commitment : string;
  value : Z;
  spent : bool;
  created_at : Z
}.

Definition mark_spent (n : PrivateNote) : PrivateNote :=
  {| owner := owner n; commitment := commitment n; value := value n;
     spent := true; created_at := created_at n |}.

Definition unspent_of (o : string) (n : PrivateNote) : bool :=
  String.eqb (owner n) o && negb (spent n).

(** [private_balance] *)
Definition private_balance (notes : list PrivateNote) (o : string) : Z :=
  fold_left Z.add (map value (List.filter (unspent_of o) notes)) 0.

(** [add_private_note] *)
Definition add_private_note (notes : list PrivateNote) (o c : string) (v now : Z)
  : list PrivateNote :=
  notes ++ [ {| owner := o; commitment := c; value := v; spent := false;
                created_at := now |} ].

(** The [for n in _private_notes] loop of [spend_private]: what is still
    needed at the end, and the notes as the loop leaves them. *)
Fixpoint spend_loop (o : string) (needed : Z) (notes : list PrivateNote)
  : Z * list PrivateNote :=
  match notes with
  | [] => (needed, [])
  | n :: rest =>
      if unspent_of o n then
        if needed <=? 0 then (needed, n :: rest)
        else let '(k, rest') := spend_loop o (needed - value n) rest in
             (k, mark_spent n :: rest')
      else let '(k, rest') := spend_loop o needed rest in (k, n :: rest')
  end.

(** [spend_private] *)
Definition spend_private (notes : list PrivateNote) (o : string) (amount : Z)
  : bool * list PrivateNote :=
  let '(needed, notes') := spend_loop o amount notes in (needed <=? 0, notes').

Section Methods.
Context `{Config} `{Validation}.

(** [is_valid_transaction] (the score it stores in [_last_ai_score] is not
    part of the ledger). *)
Definition is_valid_transaction (s : Blockchain) (t : AnyTx) : bool :=
  match t with
  | Shielded stx => if negb ZK_ENABLED then false else snark_verify stx
  | Plain tx =>
      if is_privileged tx then true
      else if negb (chain_id tx =? CHAIN_ID) then false
      else if negb (verify_signature tx) then false
      else
        let fee := commission (amount tx) in
        if get0 (balances s) (from_address tx) <? amount tx + fee then false
        else if negb (tx_nonce tx =? get0 (nonces s) (from_address tx)) then false
        else if ai_rejects tx then false
        else true
  end.

(** The [/tx] branch of [do_POST]: queue the transaction if it is valid. *)
Definition post_tx (s : Blockchain) (tx : Transaction) : bool * Blockchain :=
  if is_valid_transaction s (Plain tx)
  then (true, set_pending s (pending_transactions s ++ [Plain tx]))
  else (false, s).

(** The [/api/private/unshield] branch of [do_POST], on the ledger and the
    list of private notes; [amount] is the request's amount in base units. *)
Definition post_unshield (s : Blockchain) (notes : list PrivateNote) (amount now : Z)
  : bool * Blockchain * list PrivateNote :=
  let owner := miner_address s in
  if private_balance notes owner <? amount then (false, s, notes)
  else
    let '(ok, notes') := spend_private notes owner amount in
    if negb ok then (false, s, notes')
    else
      let tx_pub :=
        {| from_address := "system"; to_address := owner; Synced.amount := amount;
           tx_nonce := 0; tx_timestamp := now; data := "unshield";
           chain_id := CHAIN_ID; signature := None |} in
      (true, set_pending s (pending_transactions s ++ [Plain tx_pub]), notes').

(** One call that changes the ledger object. *)
Inductive step : Blockchain -> Blockchain -> Prop :=
| step_add s b ok s' : add_block s b = Returned (ok, s') -> step s s'
| step_mine s fuel t1 t2 r s' :
    mine_once fuel s t1 t2 = Some (Returned (r, s')) -> step s s'
| step_post s tx : step s (snd (post_tx s tx))
| step_queue s t : step s (set_pending s (pending_transactions s ++ [t])).

(** States of an instance started without a chain file. *)
Definition reachable (s : Blockchain) : Prop :=
  exists miner t1 t2, rtc step (init miner t1 t2) s.

(** What [add_block] checks between neighbours and on the block itself. *)
Definition sealed (p b : Block) : Prop :=
  previous_hash b = hash p
  /\ hash b = calculate_hash b
  /\ Hex.startswith (hash b) (Hex.zeros POW_DIFFICULTY) = true.

End Methods.
End SyncedExt.

(** ** Inputs for running the further methods *)

Module ToyExt.

Definition validation : SyncedExt.Validation :=
  {| SyncedExt.ZK_ENABLED := true;
     SyncedExt.snark_verify := fun _ => true;
     SyncedExt.verify_signature := fun _ => false;
     SyncedExt.ai_rejects := fun _ => true |}.

(** A transfer that names ["system"] as its sender. *)
Definition system_credit : Synced.Transaction :=
  {| Synced.from_address := "system"; Synced.to_address := "mallory";
     Synced.amount := 1000; Synced.tx_nonce := 0; Synced.tx_timestamp := 0;
     Synced.data := ""; Synced.chain_id := 0; Synced.signature := None |}.

Definition note (o : string) (v : Z) : SyncedExt.PrivateNote :=
  {| SyncedExt.owner := o; SyncedExt.commitment := ""; SyncedExt.value := v;
     SyncedExt.spent := false; SyncedExt.created_at := 0 |}.

Definition notes : list SyncedExt.PrivateNote :=
  [note "alice" 100; note "bob" 7; note "alice" 30].

(** The synced ledger at its start, after [system_credit] was posted to
    [/tx], and after the next mined block. *)
Definition synced_start : Synced.Blockchain := @Synced.init Toy.synced "miner" 0 0.

Definition synced_posted : Synced.Blockchain :=
  snd (@SyncedExt.post_tx Toy.synced validation synced_start system_credit).

Definition synced_mined : Synced.Blockchain :=
  match @Synced.mine_once Toy.synced 1 synced_posted 0 0 with
  | Some (Returned (_, s)) => s
  | _ => synced_posted
  end.

(** The state after one block mined on the toy instance, and that block. *)
Definition mined_state : B5470.Blockchain5470 :=
  match @B5470.mine_block Toy.b5470 5 Toy.run
          (B5470.start_mining (@B5470.init Toy.b5470)) "miner" with
  | Some (Returned (_, s)) => s
  | _ => @B5470.init Toy.b5470
  end.

Definition mined_block : B5470.Block :=
  match @B5470.mine_block Toy.b5470 5 Toy.run
          (B5470.start_mining (@B5470.init Toy.b5470)) "miner" with
  | Some (Returned (Some b, _)) => b
  | _ => @B5470.genesis_block Toy.b5470
  end.

(** An instance for [CoreNode] whose number printer stays short (amounts
    are counted in units of [10 ** -8] coins). *)
Definition node_crypto : Node.Crypto :=
  {| Node.sha256_hex := Toy.sha;
     Node.sha256_hex_digest := Toy.sha_digest;
     Node.str_int := fun n => Toy.unary (n mod 2);
     Node.str_float := fun _ => "" |}.

(** A node that holds one relayed transfer and mines. *)
Definition node_ready : Node.CoreNode :=
  Node.start_mining (Node.on_tx (@Node.init node_crypto "wallet" 0 0) Toy.peer_tx).

Definition node_run : option (pyresult (option Node.Block * Node.CoreNode)) :=
  @Node.mine_block node_crypto 3 node_ready 0 0.

Definition block_of (r : option (pyresult (option Node.Block * Node.CoreNode)))
  : Node.Block :=
  match r with
  | Some (Returned (Some b, _)) => b
  | _ => Toy.peer_block ""
  end.

Definition state_of (r : option (pyresult (option Node.Block * Node.CoreNode)))
  : Node.CoreNode :=
  match r with
  | Some (Returned (_, s)) => s
  | _ => node_ready
  end.

Definition node_mined_block : Node.Block := block_of node_run.
Definition node_mined_state : Node.CoreNode := state_of node_run.


End ToyExt.

(** * Facts about hexadecimal digests *)

Module HexFacts.
Import Hex.

Lemma digit_value_range c d : digit_value c = Some d -> 0 <= d < 16.
Proof.
  unfold digit_value.
  repeat match goal with
         | |- context [if ?b then _ else _] => destruct b eqn:?
         end; intros [= <-]; lia.
Qed.

Lemma value_from_bounds s :
  forall acc, 0 <= acc ->
    0 <= value_from acc s < 16 ^ Z.of_nat (String.length s) * (acc + 1).
Proof.
  induction s as [|c s IH]; intros acc Hacc; cbn [value_from String.length].
  - change (16 ^ Z.of_nat 0) with 1. lia.
  - assert (Hd : 0 <= match digit_value c with Some d => d | None => 0 end < 16).
    { destruct (digit_value c) eqn:E; [eapply digit_value_range; eauto | lia]. }
    set (d := match digit_value c with Some d => d | None => 0 end) in *.
    specialize (IH (16 * acc + d) ltac:(lia)).
    rewrite Nat2Z.inj_succ, Z.pow_succ_r by lia.
    assert (0 < 16 ^ Z.of_nat (String.length s)) by (apply Z.pow_pos_nonneg; lia).
    nia.
Qed.

(** A digest read as a number is a 256-bit unsigned integer. *)
Lemma int16_digest s : is_digest s = true -> 0 <= int16 s < 2 ^ 256.
Proof.
  unfold is_digest, int16. intros H.
  apply andb_prop in H as [Hlen _]. apply Nat.eqb_eq in Hlen.
  pose proof (value_from_bounds s 0 ltac:(lia)) as Hb.
  rewrite Hlen in Hb.
  replace (16 ^ Z.of_nat 64 * (0 + 1)) with (2 ^ 256) in Hb by reflexivity.
  exact Hb.
Qed.

End HexFacts.

(** * The Merkle loop *)

Module MerkleFacts.
Import Merkle.

Section Loop.
Variable H : string -> string.






(** A single leaf is its own root: no pairing happens, so the duplication
    identity does not extend to lists of length one. *)
Lemma root_single h : root H [h] = h.
Proof. unfold root. now rewrite reduce_equation_2. Qed.

(** The loop ends on exactly one hash when it starts from at least one. *)
Lemma reduce_singleton hs : hs <> [] -> exists h, reduce H hs = [h].
Proof.
  funelim (reduce H hs); intros Hne.
  - congruence.
  - eauto.
  - match goal with IH : _ -> exists h, reduce H (next_level H _) = [h] |- _ =>
      apply IH end.
    unfold next_level, pad_odd. destruct (Nat.odd _); cbn; congruence.
Qed.

End Loop.





End MerkleFacts.

(** * Lists: the last element and neighbouring elements *)

Module ListFacts.

Lemma last_some_snoc {A} (c : list A) (b : A) :
  List.last (map Some (c ++ [b])) None = Some b.
Proof. rewrite map_app. cbn [map]. apply last_last. Qed.

Lemma last_some_nth {A} (c : list A) :
  List.last (map Some c) None = nth_error c (length c - 1).
Proof.
  induction c as [|x [|y c] IH]; try reflexivity.
  change (List.last (map Some (x :: y :: c)) None)
    with (List.last (map Some (y :: c)) None).
  rewrite IH. cbn [length].
  replace (S (S (length c)) - 1)%nat with (S (S (length c) - 1)) by lia.
  reflexivity.
Qed.

Lemma last_some_nonempty {A} (c : list A) :
  c <> [] -> exists b, List.last (map Some c) None = Some b.
Proof.
  intros Hne. destruct (exists_last Hne) as [c' [b ->]].
  exists b. apply last_some_snoc.
Qed.

Lemma last_cons_default {A} (x : A) (rest : list A) :
  List.last (map Some (x :: rest)) None = Some (List.last rest x).
Proof.
  revert x. induction rest as [|y rest IH]; intros x; [reflexivity|].
  change (List.last (map Some (x :: y :: rest)) None)
    with (List.last (map Some (y :: rest)) None).
  rewrite IH. f_equal.
  destruct rest as [|z rest]; [reflexivity|].
  change (List.last (y :: z :: rest) x) with (List.last (z :: rest) x).
  clear IH. revert z. induction rest as [|w rest IH]; intros z; [reflexivity|].
  change (List.last (z :: w :: rest) y) with (List.last (w :: rest) y).
  change (List.last (z :: w :: rest) x) with (List.last (w :: rest) x).
  apply IH.
Qed.

Lemma adjacent_single {A} (R : A -> A -> Prop) (x : A) : adjacent R [x].
Proof. intros i p b Hp Hb. cbn in Hb. destruct i; discriminate. Qed.

(** Appending an element related to the current last one keeps every pair
    of neighbours related. *)
Lemma adjacent_snoc {A} (R : A -> A -> Prop) (c : list A) (b : A) :
  adjacent R c ->
  (forall p, List.last (map Some c) None = Some p -> R p b) ->
  adjacent R (c ++ [b]).
Proof.
  intros Hadj Hlast i p b' Hp Hb.
  destruct (Nat.lt_ge_cases (S i) (length c)) as [Hlt|Hge].
  - rewrite nth_error_app1 in Hp, Hb by lia. eauto.
  - assert (Hi : S i = length c).
    { assert (Hsome : nth_error (c ++ [b]) (S i) <> None) by congruence.
      apply nth_error_Some in Hsome. rewrite length_app in Hsome.
      cbn in Hsome. lia. }
    rewrite nth_error_app1 in Hp by lia.
    rewrite nth_error_app2, Hi, Nat.sub_diag in Hb by lia.
    injection Hb as <-. apply Hlast.
    rewrite last_some_nth. replace (length c - 1)%nat with i by lia. exact Hp.
Qed.

End ListFacts.

(** * Exact comparisons and powers of two *)

Module NumFacts.

Lemma Qltb_lt (a b : Q) : Qltb a b = true <-> (a < b)%Q.
Proof.
  unfold Qltb. rewrite negb_true_iff, <- not_true_iff_false, Qle_bool_iff.
  split; [apply Qnot_le_lt | apply Qlt_not_le].
Qed.

Lemma Qltb_nlt (a b : Q) : Qltb a b = false <-> ~ (a < b)%Q.
Proof. rewrite <- Qltb_lt. symmetry. apply not_true_iff_false. Qed.

Lemma pow2_nonneg (e : Z) : 0 <= e -> pow2 e = inject_Z (2 ^ e).
Proof. intros He. unfold pow2. now rewrite (proj2 (Z.leb_le 0 e) He). Qed.

(** The double [2.0 ** e] never exceeds the exact power. *)
Lemma pow2_le (e : Z) : (pow2 e <= Qpower 2 e)%Q.
Proof.
  unfold pow2. destruct (0 <=? e) eqn:He.
  - apply Z.leb_le in He. rewrite (Zpower_Qpower 2 e He). apply Qle_refl.
  - destruct (-1074 <=? e); [apply Qle_refl|].
    apply Qpower_0_le. discriminate.
Qed.

End NumFacts.

(** * [Blockchain5470] *)

Module B5470Facts.
Import B5470 NumFacts ListFacts.

Section WithCrypto.
Context `{Crypto}.

(** ** Proof-of-work search *)

Lemma pow_loop_found fuel target seen : forall k h h',
  pow_loop fuel target seen k h = Found h' ->
  Qltb (inject_Z (Hex.int16 (get_hash h'))) target = true
  /\ exists n, h' = set_nonce h n /\ nonce h < n.
Proof.
  induction fuel as [|fuel IH]; intros k h h' Hrun; cbn [pow_loop] in Hrun.
  - discriminate.
  - destruct (Qltb _ target) eqn:Hhit.
    + injection Hrun as <-. split; [exact Hhit|].
      exists (nonce h + 1). split; [reflexivity | lia].
    + destruct (negb (seen k)); [discriminate|].
      apply IH in Hrun as [Hlt [n [-> Hn]]].
      split; [exact Hlt|]. exists n. split; [reflexivity | cbn in Hn; lia].
Qed.

(** The search returns the first nonce under the target, provided it has
    fuel for it and the miner is not stopped on the way. *)
Lemma pow_loop_finds target seen : forall m fuel k h,
  (forall j, (j < m)%nat ->
     Qltb (inject_Z (Hex.int16 (get_hash (set_nonce h (nonce h + 1 + Z.of_nat j)))))
          target = false
     /\ seen (k + j)%nat = true) ->
  Qltb (inject_Z (Hex.int16 (get_hash (set_nonce h (nonce h + 1 + Z.of_nat m)))))
       target = true ->
  (m < fuel)%nat ->
  pow_loop fuel target seen k h = Found (set_nonce h (nonce h + 1 + Z.of_nat m)).
Proof.
  induction m as [|m IH]; intros fuel k h Hmiss Hhit Hfuel;
    (destruct fuel as [|fuel]; [lia|]); cbn [pow_loop].
  - change (Z.of_nat 0) with 0 in Hhit |- *. rewrite Z.add_0_r in Hhit |- *.
    now rewrite Hhit.
  - destruct (Hmiss 0%nat ltac:(lia)) as [Hm0 Hs0].
    change (Z.of_nat 0) with 0 in Hm0. rewrite Z.add_0_r in Hm0.
    rewrite Nat.add_0_r in Hs0. rewrite Hm0, Hs0. cbn [negb].
    replace (nonce h + 1 + Z.of_nat (S m)) with (nonce h + 1 + 1 + Z.of_nat m) in * by lia.
    apply (IH fuel (S k) (set_nonce h (nonce h + 1))); [| exact Hhit | lia].
    intros j Hj. destruct (Hmiss (S j) ltac:(lia)) as [Hm Hs].
    replace (nonce h + 1 + Z.of_nat (S j)) with (nonce h + 1 + 1 + Z.of_nat j) in Hm by lia.
    split; [exact Hm|].
    replace (S k + j)%nat with (k + S j)%nat by lia. exact Hs.
Qed.

(** A header hash is a 256-bit unsigned integer. *)
Lemma get_hash_range (h : BlockHeader) : 0 <= Hex.int16 (get_hash h) < 2 ^ 256.
Proof. apply HexFacts.int16_digest, sha256_hex_digest. Qed.

(** ** What [_adjust_difficulty] and [_add_block_to_chain] touch *)

Lemma adjust_difficulty_frame s :
  chain (_adjust_difficulty s) = chain s
  /\ mempool (_adjust_difficulty s) = mempool s
  /\ best_work (_adjust_difficulty s) = best_work s
  /\ block_time_target (_adjust_difficulty s) = block_time_target s
  /\ mining (_adjust_difficulty s) = mining s.
Proof.
  unfold _adjust_difficulty.
  destruct (length (chain s) <? 10)%nat; [tauto|].
  destruct (last10 (chain s)); [tauto|].
  repeat match goal with
         | |- context [if ?b then _ else _] => destruct b
         end; cbn; tauto.
Qed.


Lemma add_block_accepted s b :
  verify_block b = true ->
  fst (_add_block_to_chain s b) = true
  /\ chain (snd (_add_block_to_chain s b)) = (chain s ++ [b])%list
  /\ best_work (snd (_add_block_to_chain s b)) = work b.
Proof.
  intros Hv. unfold _add_block_to_chain. rewrite Hv. cbn [negb fst snd].
  destruct (adjust_difficulty_frame (set_chain s (chain s ++ [b]) (work b)))
    as (Hc & _ & Hw & _).
  rewrite Hc, Hw. auto.
Qed.

(** ** One call of [mine_block] *)





End WithCrypto.

End B5470Facts.

(** * Proof of work: what [mine_block] returns *)

Module Mining.
Import B5470 NumFacts B5470Facts.

(** C2. Whenever [mine_block] returns a block, the hash of the returned
    header, read as an unsigned integer, is strictly below
    [2 ** (256 - difficulty_target)] for the difficulty the block was mined
    at, which is the [n_bits] of the header, so the proof-of-work gate of
    [verify_block] accepts that header. *)
Theorem mine_block_meets_target `{Crypto} fuel r s addr b s' :
  mine_block fuel r s addr = Some (Returned (Some b, s')) ->
  n_bits (header b) = difficulty_target s
  /\ 0 <= Hex.int16 (get_hash (header b))
  /\ (inject_Z (Hex.int16 (get_hash (header b)))
      < Qpower 2 (256 - difficulty_target s))%Q
  /\ (difficulty_target s <= 256 ->
      Hex.int16 (get_hash (header b)) < 2 ^ (256 - difficulty_target s))
  /\ pow_ok (header b) = true.
Proof.
  unfold mine_block. intros Hrun.
  destruct (List.last (map Some (chain s)) None) as [tip|]; [|discriminate].
  destruct (pow_loop _ _ _ _ _) as [h| |] eqn:Hloop; try discriminate.
  injection Hrun as <- _. cbn [header].
  apply pow_loop_found in Hloop as [Hlt [n [-> _]]].
  match type of Hlt with
  | Qltb (inject_Z (Hex.int16 (get_hash ?hd))) _ = true => set (hdr := hd) in *
  end.
  pose proof (get_hash_range hdr) as Hrange.
  split; [reflexivity|]. split; [apply Hrange|].
  pose proof (proj1 (Qltb_lt _ _) Hlt) as Hq.
  split; [|split].
  - eapply Qlt_le_trans; [exact Hq | apply pow2_le].
  - intros Hd. rewrite pow2_nonneg in Hq by lia.
    unfold Qlt in Hq. cbn in Hq. lia.
  - unfold pow_ok. exact Hlt.
Qed.

(** The search also produces its result: with the miner left running, the
    first nonce whose hash is under the target is returned as soon as the
    fuel covers it. *)
Lemma pow_loop_total `{Crypto} target h m :
  (forall j, (j < m)%nat ->
     Qltb (inject_Z (Hex.int16 (get_hash (set_nonce h (nonce h + 1 + Z.of_nat j)))))
          target = false) ->
  Qltb (inject_Z (Hex.int16 (get_hash (set_nonce h (nonce h + 1 + Z.of_nat m)))))
       target = true ->
  forall fuel, (m < fuel)%nat ->
    pow_loop fuel target (fun _ => true) 0 h
    = Found (set_nonce h (nonce h + 1 + Z.of_nat m)).
Proof.
  intros Hmiss Hhit fuel Hfuel. apply pow_loop_finds; auto.
Qed.

Lemma mine_block_meets_target_witness :
  exists b s',
    @mine_block Toy.b5470 5 Toy.run (start_mining (@init Toy.b5470)) "miner"
    = Some (Returned (Some b, s'))
    /\ nonce (header b) = 2
    /\ @pow_ok Toy.b5470 (header b) = true.
Proof.
  eexists _, _. split; [vm_compute; reflexivity|]. split; [reflexivity|].
  eapply (@mine_block_meets_target Toy.b5470 5 Toy.run
            (start_mining (@init Toy.b5470)) "miner").
  vm_compute. reflexivity.
Defined.

End Mining.

(** * Difficulty retarget *)

Module Retarget.
Import B5470 NumFacts ListFacts.





End Retarget.

(** * Submitting to the pool of [Blockchain5470] *)

Module Submit.
Import B5470.

(** C10. A transaction whose [is_coinbase] flag is set is appended to the
    pool by [add_transaction_to_mempool], which returns [True], whatever its
    signature, whatever the pool already holds and whatever any other field
    says: no check stands between the caller and the pool. *)
Theorem coinbase_tag_bypass `{Crypto} (s : Blockchain5470) (tx : Transaction) :
  is_coinbase tx = true ->
  add_transaction_to_mempool s tx = (true, set_mempool s (mempool s ++ [tx])).
Proof.
  intros Htag. unfold add_transaction_to_mempool. rewrite Htag. reflexivity.
Qed.

(** An untagged transaction is only taken when its signature verifies. *)
Lemma untagged_needs_signature `{Crypto} (s : Blockchain5470) (tx : Transaction) :
  is_coinbase tx = false ->
  fst (add_transaction_to_mempool s tx) = verify_signature tx.
Proof.
  intros Htag. unfold add_transaction_to_mempool. rewrite Htag.
  destruct (verify_signature tx); reflexivity.
Qed.

(** Submitted twice, a tagged transaction sits twice in the pool. *)
Lemma coinbase_tag_bypass_witness :
  mempool (snd (@add_transaction_to_mempool Toy.b5470
                  (snd (@add_transaction_to_mempool Toy.b5470
                          (@init Toy.b5470) Toy.coinbase_tagged))
                  Toy.coinbase_tagged))
  = [Toy.coinbase_tagged; Toy.coinbase_tagged].
Proof.
  rewrite (@coinbase_tag_bypass Toy.b5470 (@init Toy.b5470) Toy.coinbase_tagged
             eq_refl).
  rewrite (@coinbase_tag_bypass Toy.b5470 _ Toy.coinbase_tagged eq_refl).
  reflexivity.
Defined.

End Submit.

(** * [best_work] of [Blockchain5470] *)

Module ForkChoice.
Import B5470 B5470Facts ListFacts.

Section WithCrypto.
Context `{Crypto}.





End WithCrypto.




End ForkChoice.

(** * [CoreNode] *)

Module NodeFacts.
Import Node ListFacts.

Section WithCrypto.
Context `{Crypto}.

Lemma update_utxo_set_frame s b :
  blockchain (update_utxo_set s b) = blockchain s
  /\ mempool (update_utxo_set s b) = mempool s.
Proof. split; reflexivity. Qed.

(** [validate_block] on a non-empty chain compares with the last block. *)
Lemma validate_block_tip s b tip :
  List.last (map Some (blockchain s)) None = Some tip ->
  validate_block s b = true ->
  links_to tip b /\ Hex.startswith (hash b) "0000" = true.
Proof.
  unfold validate_block. intros Htip Hval.
  destruct (blockchain s) as [|first rest]; [discriminate|].
  rewrite last_cons_default in Htip. injection Htip as <-.
  apply andb_prop in Hval as [Hval Hpow].
  apply andb_prop in Hval as [Hidx Hprev].
  apply Z.eqb_eq in Hidx. apply String.eqb_eq in Hprev.
  unfold links_to. auto.
Qed.

(** [add_block] either changes nothing or appends the validated block;
    the pool is never touched. *)
Lemma add_block_effect s b :
  mempool (add_block s b) = mempool s
  /\ (blockchain (add_block s b) = blockchain s
      \/ (validate_block s b = true
          /\ blockchain (add_block s b) = (blockchain s ++ [b])%list)).
Proof.
  unfold add_block. destruct (validate_block s b); cbn; auto.
Qed.


Lemma add_block_nonempty s b : blockchain s <> [] -> blockchain (add_block s b) <> [].
Proof.
  intros Hne. destruct (add_block_effect s b) as [_ [-> | [_ ->]]]; [exact Hne|].
  now destruct (blockchain s).
Qed.


Lemma mine_block_frame fuel s t1 t2 res s' :
  mine_block fuel s t1 t2 = Some (Returned (res, s')) ->
  blockchain s' = blockchain s.
Proof.
  unfold mine_block. intros Hrun.
  destruct (mempool s); [now injection Hrun as _ <-|].
  destruct (List.last (map Some (blockchain s)) None); [|discriminate].
  destruct (pow_loop _ _); [|discriminate].
  now injection Hrun as _ <-.
Qed.


Lemma init_chain address t1 t2 :
  exists g, blockchain (init address t1 t2) = [g].
Proof. eexists. reflexivity. Qed.


End WithCrypto.

End NodeFacts.

(** * Chain linkage *)

Module Linkage.
Import ListFacts.






End Linkage.

(** * Mempool and accepted blocks in [CoreNode] *)

Module Exclusivity.
Import Node NodeFacts.

(** Neither [add_block] nor the [MSG_BLOCKS] handler ever changes the
    pool. *)
Lemma on_blocks_mempool `{Crypto} (s : CoreNode) (bs : list Block) :
  mempool (on_blocks s bs) = mempool s.
Proof.
  unfold on_blocks. revert s.
  induction bs as [|b bs IH]; intros s; cbn [fold_left]; [reflexivity|].
  rewrite IH. destruct (validate_block s b); [|reflexivity].
  exact (proj1 (add_block_effect s b)).
Qed.

Lemma Transaction_eqb_refl (tx : Transaction) : Transaction_eqb tx tx = true.
Proof.
  unfold Transaction_eqb.
  now rewrite !String.eqb_refl, !Z.eqb_refl, (proj2 (Qeq_bool_iff _ _) (Qeq_refl _)).
Qed.

Lemma remove_each_self {A} (eqb : A -> A -> bool) (l : list A) :
  (forall x, eqb x x = true) -> remove_each eqb l l = [].
Proof.
  intros Hrefl. unfold remove_each.
  induction l as [|x l IH]; [reflexivity|].
  cbn [fold_left remove_first]. now rewrite Hrefl.
Qed.

(** The local path does evict: a block mined from a pool of at most ten
    transactions leaves the pool empty. *)
Lemma local_mining_evicts `{Crypto} fuel (s : CoreNode) t1 t2 b s' :
  mine_block fuel s t1 t2 = Some (Returned (Some b, s')) ->
  (length (mempool s) <= 10)%nat ->
  mempool s' = [].
Proof.
  unfold mine_block. intros Hrun Hlen.
  destruct (mempool s) as [|tx pool] eqn:Hpool; [discriminate|].
  destruct (List.last (map Some (blockchain s)) None); [|discriminate].
  destruct (pow_loop _ _); [|discriminate].
  injection Hrun as _ <-. cbn [mempool set_mempool].
  rewrite firstn_all2 by (cbn [length] in Hlen; lia).
  apply (remove_each_self Transaction_eqb (tx :: pool)), Transaction_eqb_refl.
Qed.

(** C9 at its failing input.  A node holds a relayed transfer in its pool;
    a peer then sends a block on the node's tip that contains the same
    transfer.  The block is accepted and the transfer's hash is still in
    the pool. *)
Theorem peer_block_keeps_pool `{Crypto} (address : string) (t1 t2 : Q) :
  let s1 := on_tx (init address t1 t2) Toy.peer_tx in
  let blk := Toy.peer_block (tip_hash s1) in
  let s2 := on_blocks s1 [blk] in
  mempool s1 = [Toy.peer_tx]
  /\ blockchain s2 = (blockchain s1 ++ [blk])%list
  /\ In (tx_hash Toy.peer_tx) (block_tx_hashes blk)
  /\ In (tx_hash Toy.peer_tx) (mempool_tx_hashes s2).
Proof.
  intros s1 blk s2.
  assert (Hpool : mempool s1 = [Toy.peer_tx]) by reflexivity.
  assert (Hval : validate_block s1 blk = true).
  { subst blk. unfold validate_block, tip_hash.
    change (blockchain s1) with (blockchain (init address t1 t2)).
    destruct (init_chain address t1 t2) as [g Hg]. rewrite Hg.
    assert (Hidx : index g = 0).
    { cbn in Hg. injection Hg as <-. reflexivity. }
    cbn [map List.last Toy.peer_block index previous_hash hash].
    rewrite Hidx, String.eqb_refl. reflexivity. }
  split; [exact Hpool|]. split; [|split].
  - subst s2. unfold on_blocks. cbn [fold_left]. rewrite Hval.
    unfold add_block. rewrite Hval. reflexivity.
  - left. reflexivity.
  - unfold mempool_tx_hashes. subst s2. rewrite on_blocks_mempool, Hpool.
    left. reflexivity.
Qed.

End Exclusivity.

(** * Rejected blocks *)

Module Atomicity.

(** C4. When block acceptance rejects a candidate, that is when
    [Blockchain.add_block] or [Blockchain5470._add_block_to_chain] returns
    [False], the object is exactly what it was before the call: chain,
    balances, nonces and every other field. *)
Theorem rejection_atomic :
  (forall (C : Synced.Config) (s s' : Synced.Blockchain) (b : Synced.Block),
      Synced.add_block s b = Returned (false, s') -> s' = s)
  /\ (forall (C : B5470.Crypto) (s s' : B5470.Blockchain5470) (b : B5470.Block),
         B5470._add_block_to_chain s b = (false, s') -> s' = s).
Proof.
  split.
  - intros C s s' b. unfold Synced.add_block.
    destruct (List.last (map Some (Synced.chain s)) None); [|discriminate].
    repeat match goal with
           | |- context [if ?c then _ else _] => destruct c
           end; try (intros [= <-]; reflexivity).
    destruct (fold_left _ _ _). discriminate.
  - intros C s s' b. unfold B5470._add_block_to_chain.
    destruct (negb (B5470.verify_block b)); [|discriminate].
    now intros [= <-].
Qed.

Lemma rejection_atomic_witness :
  (exists s',
      @Synced.add_block Toy.synced (@Synced.init Toy.synced "miner" 0 0) Toy.stray_block
      = Returned (false, s')
      /\ s' = @Synced.init Toy.synced "miner" 0 0)
  /\ snd (@B5470._add_block_to_chain Toy.b5470 (@B5470.init Toy.b5470)
            Toy.bad_merkle_block)
     = @B5470.init Toy.b5470.
Proof.
  split.
  - eexists. split; [reflexivity|].
    apply (proj1 rejection_atomic Toy.synced _ _ Toy.stray_block). reflexivity.
  - apply (proj2 rejection_atomic Toy.b5470 _ _ Toy.bad_merkle_block).
    reflexivity.
Defined.

End Atomicity.

(** * Block reward of the synced chain *)

Module Reward.
Import Synced.


Section WithConfig.
Context `{Config}.




(** [proof_of_work] only moves the nonce and the stored hash, and stops on
    a block that passes the gates of [add_block]. *)
Lemma proof_of_work_spec fuel : forall b b',
  proof_of_work fuel b = Some b' ->
  index b' = index b /\ transactions b' = transactions b
  /\ previous_hash b' = previous_hash b
  /\ hash b' = calculate_hash b'
  /\ Hex.startswith (hash b') (Hex.zeros POW_DIFFICULTY) = true.
Proof.
  induction fuel as [|fuel IH]; intros b b' Hrun; cbn [proof_of_work] in Hrun.
  - discriminate.
  - destruct (Hex.startswith _ _) eqn:Hpow.
    + injection Hrun as <-. repeat split; try reflexivity. exact Hpow.
    + apply IH in Hrun. exact Hrun.
Qed.

(** [mine_once] appends a block at the next index whose first transaction
    credits the miner with [get_block_reward] of that index, and returns
    that amount. *)
Lemma mine_once_reward fuel s t1 t2 reward s' :
  mine_once fuel s t1 t2 = Some (Returned (reward, s')) ->
  exists prev newb coinbase,
    List.last (map Some (chain s)) None = Some prev
    /\ get_block_reward (index prev + 1) = Returned reward
    /\ chain s' = (chain s ++ [newb])%list
    /\ index newb = index prev + 1
    /\ transactions newb = Plain coinbase :: pending_transactions s
    /\ from_address coinbase = "system"
    /\ to_address coinbase = miner_address s
    /\ amount coinbase = reward.
Proof.
  unfold mine_once. intros Hrun.
  destruct (List.last (map Some (chain s)) None) as [prev|] eqn:Hprev; [|discriminate].
  destruct (get_block_reward (index prev + 1)) as [r|e] eqn:Hrew; [|discriminate].
  destruct (proof_of_work _ _) as [newb|] eqn:Hpow; [|discriminate].
  apply proof_of_work_spec in Hpow as (Hidx & Htxs & Hprevh & Hhash & Hzeros).
  cbn [index transactions previous_hash set_hash] in Hidx, Htxs, Hprevh.
  unfold add_block in Hrun. cbn [chain] in Hrun. rewrite Hprev in Hrun.
  rewrite Hprevh, String.eqb_refl, <- Hhash, String.eqb_refl, Hzeros in Hrun.
  cbn [negb] in Hrun.
  destruct (fold_left _ _ _) as [bal non].
  injection Hrun as -> <-. cbn [chain].
  eexists prev, newb, _. repeat split; try eassumption; reflexivity.
Qed.

End WithConfig.



End Reward.

(** * Balances of [RealBlockchain] *)

Module Balances.
Import Real.

Section WithCrypto.
Context `{Crypto}.

Lemma pow_loop_transactions fuel : forall b b',
  pow_loop fuel b = Some b' -> transactions b' = transactions b.
Proof.
  induction fuel as [|fuel IH]; intros b b' Hrun; cbn [pow_loop] in Hrun.
  - discriminate.
  - destruct (Hex.startswith _ _).
    + now injection Hrun as <-.
    + apply IH in Hrun. exact Hrun.
Qed.

Lemma block_mine_transactions fuel b b' :
  block_mine fuel b = Some b' -> transactions b' = transactions b.
Proof. intros Hrun. apply pow_loop_transactions in Hrun. exact Hrun. Qed.

(** A mined block applies the reward and then every pending transaction to
    the balances, unconditionally, and empties the pending list. *)
Lemma mine_pending_effect fuel s addr t1 t2 b s' :
  mine_pending_transactions fuel s addr t1 t2 = Some (Returned (b, s')) ->
  exists reward_tx,
    from_address reward_tx = "0" /\ to_address reward_tx = addr
    /\ amount reward_tx = mining_reward s
    /\ balances s' = fold_left apply_tx (reward_tx :: pending_transactions s) (balances s)
    /\ pending_transactions s' = []
    /\ mining_reward s' = mining_reward s.
Proof.
  unfold mine_pending_transactions. intros Hrun.
  destruct (List.last (map Some (chain s)) None); [|discriminate].
  destruct (block_mine fuel _) as [nb|] eqn:Hmine; [|discriminate].
  injection Hrun as _ <-.
  apply block_mine_transactions in Hmine. cbn [transactions] in Hmine.
  eexists. repeat split; cycle 3.
  - cbn. rewrite Hmine. reflexivity.
  - reflexivity.
  - reflexivity.
  - reflexivity.
Qed.

(** Balance of [a] after one transaction: debit the sender unless it is the
    reward address, credit the recipient. *)
Lemma apply_tx_lookup (bal : gmap string Q) (tx : Transaction) (a : string) :
  (default 0 (apply_tx bal tx !! a)
   == default 0 (bal !! a)
      - (if negb (String.eqb (from_address tx) "0") && String.eqb (from_address tx) a
         then amount tx else 0)
      + (if String.eqb (to_address tx) a then amount tx else 0))%Q.
Proof.
  unfold apply_tx.
  destruct (String.eqb_spec (to_address tx) a) as [Hto|Hto];
    destruct (negb (String.eqb (from_address tx) "0")); cbn [andb];
    try destruct (String.eqb_spec (from_address tx) a) as [Hfrom|Hfrom];
    subst;
    rewrite ?lookup_insert_eq, ?lookup_insert_ne by congruence;
    rewrite ?Hfrom, ?lookup_insert_eq, ?lookup_insert_ne by congruence;
    cbv [default from_option id]; ring.
Qed.

(** A transfer that is covered by the confirmed balance is queued, whatever
    is queued already. *)
Lemma add_transaction_funded s tx :
  String.eqb (from_address tx) "0" = false ->
  tx_hash tx = tx_calculate_hash tx ->
  (amount tx <= get_balance s (from_address tx))%Q ->
  add_transaction s tx
  = (true, set_pending s (pending_transactions s
                          ++ [set_tx_hash tx (tx_calculate_hash tx)])).
Proof.
  intros Hfrom Hhash Hbal. unfold add_transaction, verify_transaction.
  rewrite Hfrom, Hhash, String.eqb_refl. cbn [negb andb].
  assert (Hq : Qltb (get_balance s (from_address tx)) (amount tx) = false).
  { apply NumFacts.Qltb_nlt. now apply Qle_not_lt. }
  now rewrite Hq.
Qed.

Lemma init_state fuel now s :
  init fuel now = Some s ->
  balances s = ∅ /\ pending_transactions s = [] /\ mining_reward s = 10%Q.
Proof.
  unfold init, create_genesis_block. intros Hrun.
  destruct (block_mine fuel _); [|discriminate].
  now injection Hrun as <-.
Qed.

End WithCrypto.

(** C3 at its failing input.  Whenever the run of [Scenario.double_spend]
    completes, both transfers of 8 were accepted by [add_transaction]
    against Alice's confirmed balance of 10, and after the next block her
    balance is -6. *)
Theorem double_spend_overdraws `{Crypto} (fuel : nat) (ok1 ok2 : bool)
        (s : RealBlockchain) :
  Scenario.double_spend fuel = Some (ok1, ok2, s) ->
  ok1 = true /\ ok2 = true
  /\ (get_balance s "alice" == -6)%Q
  /\ (get_balance s "alice" < 0)%Q.
Proof.
  unfold Scenario.double_spend. intros Hrun.
  destruct (init fuel 0) as [s0|] eqn:Hinit; [|discriminate].
  apply init_state in Hinit as (Hb0 & Hp0 & Hr0).
  destruct (mine_pending_transactions fuel s0 "alice" 1 1)
    as [[[b1 s1]|e]|] eqn:Hmine1; try discriminate.
  apply mine_pending_effect in Hmine1
    as (r1 & Hr1f & Hr1t & Hr1a & Hb1 & Hp1 & Hr1).
  rewrite Hp0, Hb0 in Hb1. cbn [fold_left] in Hb1.
  assert (Halice1 : (get_balance s1 "alice" == 10)%Q).
  { unfold get_balance. rewrite Hb1, apply_tx_lookup.
    rewrite Hr1f, Hr1t, Hr1a, Hr0, lookup_empty. reflexivity. }
  rewrite (add_transaction_funded s1 (Scenario.transfer 2)) in Hrun;
    [| reflexivity | reflexivity
     | change (from_address (Scenario.transfer 2)) with "alice";
       rewrite Halice1; discriminate ].
  rewrite (add_transaction_funded _ (Scenario.transfer 3)) in Hrun;
    [| reflexivity | reflexivity
     | change (from_address (Scenario.transfer 3)) with "alice";
       unfold get_balance in *; cbn [balances set_pending];
       rewrite Halice1; discriminate ].
  destruct (mine_pending_transactions fuel _ "carol" 4 4)
    as [[[b2 s4]|e]|] eqn:Hmine2; try discriminate.
  injection Hrun as <- <- <-.
  apply mine_pending_effect in Hmine2
    as (r2 & Hr2f & Hr2t & Hr2a & Hb2 & _ & _).
  cbn [pending_transactions set_pending balances] in Hb2.
  rewrite Hp1 in Hb2. cbn [app fold_left] in Hb2.
  assert (Halice : (get_balance s4 "alice" == -6)%Q).
  { unfold get_balance. rewrite Hb2.
    rewrite !apply_tx_lookup. rewrite Hr2f, Hr2t.
    unfold get_balance in Halice1. rewrite Halice1.
    reflexivity. }
  repeat split; [exact Halice|]. rewrite Halice. reflexivity.
Qed.

Lemma double_spend_overdraws_witness :
  exists s, @Scenario.double_spend Toy.real 3 = Some (true, true, s)
            /\ (@get_balance s "alice" < 0)%Q.
Proof.
  eexists. split; [vm_compute; reflexivity|].
  eapply (@double_spend_overdraws Toy.real 3 true true). vm_compute. reflexivity.
Defined.

End Balances.

(** * More about [Blockchain5470] *)

Module Ledger5470.
Import B5470 B5470Ext NumFacts ListFacts B5470Facts.

Lemma remove_each_prefix {A} (eqb : A -> A -> bool) :
  (forall x, eqb x x = true) ->
  forall (k : nat) (l : list A), remove_each eqb (firstn k l) l = skipn k l.
Proof.
  intros Hrefl. unfold remove_each.
  induction k as [|k IH]; intros [|x l]; try reflexivity.
  cbn [firstn fold_left remove_first skipn]. rewrite Hrefl. apply IH.
Qed.

Lemma list_eqb_refl {A} (eqb : A -> A -> bool) (l : list A) :
  (forall x, eqb x x = true) -> list_eqb eqb l l = true.
Proof.
  intros Hrefl. induction l as [|x l IH]; [reflexivity|].
  cbn [list_eqb]. now rewrite Hrefl, IH.
Qed.

Lemma Qeq_bool_refl' (q : Q) : Qeq_bool q q = true.
Proof. apply Qeq_bool_iff, Qeq_refl. Qed.

Lemma TxIO_eqb_refl (o : TxIO) : TxIO_eqb o o = true.
Proof. unfold TxIO_eqb. now rewrite String.eqb_refl, Qeq_bool_refl'. Qed.

Lemma tx_eqb_refl (tx : Transaction) : Transaction_eqb tx tx = true.
Proof.
  unfold Transaction_eqb.
  rewrite !String.eqb_refl, !Qeq_bool_refl', !(list_eqb_refl TxIO_eqb _ TxIO_eqb_refl).
  now destruct (is_coinbase tx).
Qed.

Lemma forallb_skipn {A} (f : A -> bool) (k : nat) (l : list A) :
  forallb f l = true -> forallb f (skipn k l) = true.
Proof.
  revert l. induction k as [|k IH]; intros [|x l] Hl; try assumption.
  cbn [skipn]. cbn [forallb] in Hl. apply andb_prop in Hl as [_ Hl]. now apply IH.
Qed.

Lemma forallb_firstn {A} (f : A -> bool) (k : nat) (l : list A) :
  forallb f l = true -> forallb f (firstn k l) = true.
Proof.
  revert l. induction k as [|k IH]; intros [|x l] Hl; try reflexivity.
  cbn [firstn forallb] in *. apply andb_prop in Hl as [Hx Hl].
  now rewrite Hx, IH.
Qed.

Section WithCrypto.
Context `{Crypto}.

Lemma add_block_mempool s b :
  mempool (snd (_add_block_to_chain s b)) = mempool s
  /\ mining (snd (_add_block_to_chain s b)) = mining s
  /\ block_time_target (snd (_add_block_to_chain s b)) = block_time_target s.
Proof.
  unfold _add_block_to_chain. destruct (verify_block b); cbn [negb snd]; [|auto].
  destruct (adjust_difficulty_frame (set_chain s (chain s ++ [b]) (work b)))
    as (_ & Hm & _ & Ht & Hg).
  rewrite Hm, Ht, Hg. auto.
Qed.

(** A returned block, spelled out. *)
Lemma mine_block_some fuel r s addr b s' :
  mine_block fuel r s addr = Some (Returned (Some b, s')) ->
  exists tip,
    List.last (map Some (chain s)) None = Some tip
    /\ transactions b
       = _create_coinbase_transaction addr (coinbase_id r) (coinbase_time r)
         :: firstn 10 (mempool s)
    /\ merkle_root (header b) = calculate_merkle_root (transactions b)
    /\ n_bits (header b) = difficulty_target s
    /\ pow_ok (header b) = true
    /\ work b = work tip + 2 ^ difficulty_target s
    /\ chain s' = chain (snd (_add_block_to_chain s b))
    /\ best_work s' = best_work (snd (_add_block_to_chain s b))
    /\ difficulty_target s' = difficulty_target (snd (_add_block_to_chain s b))
    /\ mining s' = mining s
    /\ block_time_target s' = block_time_target s
    /\ mempool s' = skipn 10 (mempool s).
Proof.
  unfold mine_block. intros Hrun.
  destruct (List.last (map Some (chain s)) None) as [tip|]; [|discriminate].
  destruct (pow_loop _ _ _ _ _) as [h| |] eqn:Hloop; try discriminate.
  injection Hrun as <- <-.
  apply pow_loop_found in Hloop as [Hlt [n [-> _]]].
  exists tip. cbn [transactions header work chain best_work difficulty_target
                   mining block_time_target mempool set_mempool tl].
  match goal with
  | |- context [_add_block_to_chain s ?blk] => set (b := blk)
  end.
  destruct (add_block_mempool s b) as (Hm & Hg & Ht).
  repeat split; try reflexivity; try assumption.
  rewrite Hm. apply remove_each_prefix, tx_eqb_refl.
Qed.

(** X1. A block returned by [mine_block] holds the coinbase followed by the
    first ten pooled transactions in insertion order, and exactly those
    leave the pool. *)
Theorem mine_block_takes_first_ten fuel r s addr b s' :
  mine_block fuel r s addr = Some (Returned (Some b, s')) ->
  transactions b
  = _create_coinbase_transaction addr (coinbase_id r) (coinbase_time r)
    :: firstn 10 (mempool s)
  /\ mempool s' = skipn 10 (mempool s).
Proof.
  intros Hrun. apply mine_block_some in Hrun as (tip & _ & Htx & Hrest).
  split; [exact Htx|]. apply Hrest.
Qed.

Lemma mine_block_none fuel r s addr s' :
  mine_block fuel r s addr = Some (Returned (None, s')) -> s' = s.
Proof.
  unfold mine_block. intros Hrun.
  destruct (List.last (map Some (chain s)) None); [|discriminate].
  destruct (pow_loop _ _ _ _ _); try discriminate.
  now injection Hrun as <-.
Qed.

(** X2. A search that ends without a block leaves the object untouched, and
    with the miner flag off there is exactly one attempt. *)
Theorem mine_block_stopped fuel r s addr :
  (forall s', mine_block fuel r s addr = Some (Returned (None, s')) -> s' = s)
  /\ (mining_seen r 0%nat = false -> chain s <> [] ->
      exists res s',
        mine_block (S fuel) r s addr = Some (Returned (res, s'))
        /\ (forall b, res = Some b -> nonce (header b) = 1)
        /\ (res = None -> s' = s)).
Proof.
  split.
  - intros s'. apply mine_block_none.
  - intros Hoff Hne. unfold mine_block.
    destruct (last_some_nonempty (chain s) Hne) as [tip ->].
    cbn [pow_loop]. destruct (Qltb _ _).
    + eexists _, _. split; [reflexivity|]. split; [|discriminate].
      intros b [= <-]. reflexivity.
    + rewrite Hoff. cbn [negb].
      eexists _, _. split; [reflexivity|]. split; [discriminate | reflexivity].
Qed.

(** X3. The proof-of-work gate of [verify_block] reads the target from the
    block's own [n_bits]: with [n_bits <= 0] every header passes, and with
    [n_bits > 256] only a header whose hash is the number zero does. *)
Theorem pow_gate_own_target (h : BlockHeader) :
  (n_bits h <= 0 -> pow_ok h = true)
  /\ (256 < n_bits h -> pow_ok h = true -> Hex.int16 (get_hash h) = 0).
Proof.
  pose proof (get_hash_range h) as Hr. unfold pow_ok. split.
  - intros Hn. apply Qltb_lt. rewrite pow2_nonneg by lia.
    assert (2 ^ 256 <= 2 ^ (256 - n_bits h)) by (apply Z.pow_le_mono_r; lia).
    unfold Qlt. cbn. lia.
  - intros Hn Hok. apply Qltb_lt in Hok.
    assert (Hone : (pow2 (256 - n_bits h) <= 1)%Q).
    { eapply Qle_trans; [apply pow2_le|].
      replace (256 - n_bits h) with (- (n_bits h - 256)) by lia.
      rewrite Qpower_opp.
      assert (H1 : (1 <= 2 ^ (n_bits h - 256))%Q)
        by (apply Qpower_1_le; [discriminate | lia]).
      apply Qle_shift_inv_r; [eapply Qlt_le_trans; [|exact H1]; reflexivity|].
      now rewrite Qmult_1_l. }
    assert (Hlt : (inject_Z (Hex.int16 (get_hash h)) < 1)%Q)
      by (eapply Qlt_le_trans; eauto).
    unfold Qlt in Hlt. cbn in Hlt. lia.
Qed.

End WithCrypto.

Lemma mine_block_takes_first_ten_witness :
  exists b s',
    @mine_block Toy.b5470 5 Toy.run
      (snd (@add_transaction_to_mempool Toy.b5470
              (start_mining (@init Toy.b5470)) Toy.coinbase_tagged)) "miner"
    = Some (Returned (Some b, s'))
    /\ length (transactions b) = 2%nat /\ mempool s' = [].
Proof.
  eexists _, _. split; [vm_compute; reflexivity|]. split; [reflexivity|].
  refine (proj2 (@mine_block_takes_first_ten Toy.b5470 5 Toy.run
                   (snd (@add_transaction_to_mempool Toy.b5470
                           (start_mining (@init Toy.b5470)) Toy.coinbase_tagged))
                   "miner" _ _ _)).
  vm_compute. reflexivity.
Defined.

Lemma mine_block_stopped_witness :
  exists res s',
    @mine_block Toy.b5470 1
      {| coinbase_id := ""; coinbase_time := 0; header_time := 0;
         mining_seen := fun _ => false |} (@init Toy.b5470) "miner"
    = Some (Returned (res, s'))
    /\ (forall b, res = Some b -> nonce (header b) = 1)
    /\ (res = None -> s' = @init Toy.b5470).
Proof.
  apply (proj2 (@mine_block_stopped Toy.b5470 0
                  {| coinbase_id := ""; coinbase_time := 0; header_time := 0;
                     mining_seen := fun _ => false |} (@init Toy.b5470) "miner"));
    [reflexivity | discriminate].
Defined.

Lemma pow_gate_own_target_witness :
  @pow_ok Toy.b5470 (header (Toy.loose_block 0)) = true.
Proof.
  apply (proj1 (@pow_gate_own_target Toy.b5470 (header (Toy.loose_block 0)))).
  cbn. lia.
Defined.

End Ledger5470.

(** * Invariants of [Blockchain5470] *)

Module Invariants5470.
Import B5470 B5470Ext NumFacts ListFacts B5470Facts Ledger5470.

Section WithCrypto.
Context `{Crypto}.

(** Induction over the public calls that lead to a state. *)
Lemma reachable_ind (P : Blockchain5470 -> Prop) :
  P init -> (forall s s', reachable s -> P s -> step s s' -> P s') ->
  forall s, reachable s -> P s.
Proof.
  intros Hinit Hstep s Hr. unfold reachable in Hr.
  apply (rtc_ind_r (R := step) (fun st => reachable st /\ P st) init);
    [split; [apply rtc_refl | exact Hinit] | | exact Hr].
  intros s1 s2 _ Hs [Hr1 HP1]. split; [|eauto].
  unfold reachable. eapply rtc_r; eauto.
Qed.

Lemma adjust_difficulty_bounds s :
  1 <= difficulty_target s ->
  1 <= difficulty_target (_adjust_difficulty s)
  /\ difficulty_target s - 1 <= difficulty_target (_adjust_difficulty s)
     <= difficulty_target s + 1.
Proof.
  intros Hd. unfold _adjust_difficulty.
  destruct (length (chain s) <? 10)%nat; [lia|].
  destruct (last10 (chain s)); [lia|].
  repeat match goal with
         | |- context [if ?b then _ else _] => destruct b
         end; cbn [difficulty_target set_difficulty_target]; lia.
Qed.

Lemma add_block_difficulty s b :
  1 <= difficulty_target s ->
  1 <= difficulty_target (snd (_add_block_to_chain s b))
  /\ difficulty_target s - 1 <= difficulty_target (snd (_add_block_to_chain s b))
     <= difficulty_target s + 1.
Proof.
  intros Hd. unfold _add_block_to_chain.
  destruct (verify_block b); cbn [negb snd]; [|lia].
  apply (adjust_difficulty_bounds (set_chain s (chain s ++ [b]) (work b))). exact Hd.
Qed.

Lemma step_difficulty s s' :
  1 <= difficulty_target s -> step s s' -> 1 <= difficulty_target s'.
Proof.
  intros Hd Hstep. destruct Hstep as [s tx|s fuel r addr [b|] s' Hrun|s|s].
  - unfold add_transaction_to_mempool. destruct (_ && _); exact Hd.
  - apply mine_block_some in Hrun as (_ & _ & _ & _ & _ & _ & _ & _ & _ & -> & _).
    now apply add_block_difficulty.
  - now rewrite (mine_block_none fuel r s addr s' Hrun).
  - exact Hd.
  - exact Hd.
Qed.

Lemma reachable_difficulty s : reachable s -> 1 <= difficulty_target s.
Proof.
  apply (reachable_ind (fun st => 1 <= difficulty_target st)); [cbn; lia|].
  intros s1 s2 _. apply step_difficulty.
Qed.

Lemma reachable_pool_ok : forall s, reachable s -> pool_ok s = true.
Proof.
  apply (reachable_ind (fun st => pool_ok st = true)); [reflexivity|].
  intros s1 s2 _ Hok Hstep. unfold pool_ok in *.
  destruct Hstep as [s tx|s fuel r addr [b|] s' Hrun|s|s].
  - unfold add_transaction_to_mempool.
    destruct (is_coinbase tx) eqn:Hcb, (verify_signature tx) eqn:Hv;
      cbn [negb andb snd mempool set_mempool]; try exact Hok;
      rewrite forallb_app, Hok; cbn [forallb]; now rewrite Hcb, ?Hv.
  - apply mine_block_some in Hrun as (_ & _ & _ & _ & _ & _ & _ & _ & _ & _ & _ & _ & ->).
    now apply forallb_skipn.
  - now rewrite (mine_block_none fuel r s addr s' Hrun).
  - exact Hok.
  - exact Hok.
Qed.

(** In a reachable state a block that [mine_block] returns passes
    [verify_block]. *)
Lemma mined_block_verifies fuel r s addr b s' :
  pool_ok s = true ->
  mine_block fuel r s addr = Some (Returned (Some b, s')) ->
  verify_block b = true.
Proof.
  intros Hok Hrun.
  apply mine_block_some in Hrun as (_ & _ & Htx & Hroot & _ & Hpow & _).
  unfold verify_block. rewrite Hroot, String.eqb_refl, Hpow. cbn [negb].
  rewrite Htx. cbn [forallb _create_coinbase_transaction is_coinbase orb andb].
  unfold pool_ok in Hok. now rewrite (forallb_firstn _ 10 _ Hok).
Qed.



End WithCrypto.


(** X5. In every reachable state a block returned by [mine_block] has been
    appended: it passes [verify_block], ends the chain, and its work is the
    new [best_work]. *)
Theorem mined_block_is_appended `{Crypto} fuel r (s : Blockchain5470) addr b s' :
  reachable s ->
  mine_block fuel r s addr = Some (Returned (Some b, s')) ->
  verify_block b = true
  /\ chain s' = (chain s ++ [b])%list
  /\ best_work s' = work b.
Proof.
  intros Hr Hrun.
  pose proof (mined_block_verifies fuel r s addr b s' (reachable_pool_ok s Hr) Hrun)
    as Hv.
  apply mine_block_some in Hrun as (_ & _ & _ & _ & _ & _ & _ & -> & -> & _).
  destruct (add_block_accepted s b Hv) as (_ & Hc & Hw). auto.
Qed.

(** X6. The difficulty moves by at most one per accepted block and never
    drops below 1, whatever blocks are accepted. *)
Theorem difficulty_bounds `{Crypto} :
  (forall s b,
      1 <= difficulty_target s ->
      1 <= difficulty_target (snd (_add_block_to_chain s b))
      /\ difficulty_target s - 1 <= difficulty_target (snd (_add_block_to_chain s b))
         <= difficulty_target s + 1)
  /\ (forall bs, 1 <= difficulty_target (accept_all init bs))
  /\ (forall s, reachable s -> 1 <= difficulty_target s).
Proof.
  split; [exact add_block_difficulty|]. split; [|exact reachable_difficulty].
  intros bs. unfold accept_all.
  assert (Hgen : forall s, 1 <= difficulty_target s ->
                           1 <= difficulty_target
                                  (fold_left (fun st b => snd (_add_block_to_chain st b))
                                             bs s)).
  { induction bs as [|b bs IH]; intros s Hd; cbn [fold_left]; [exact Hd|].
    apply IH. now apply add_block_difficulty. }
  apply Hgen. cbn. lia.
Qed.


(** X8. After a mined block the balance [get_balance] reports for an address
    is the old one plus 50 for the miner, then the first ten pooled
    transactions applied output by output and input by input, with no
    check. *)
Theorem mined_block_credits `{Crypto} fuel r (s : Blockchain5470) addr b s' a :
  reachable s ->
  mine_block fuel r s addr = Some (Returned (Some b, s')) ->
  get_balance s' a
  = fold_left (scan_tx a) (firstn 10 (mempool s))
              (if String.eqb addr a then (get_balance s a + 50)%Q
               else get_balance s a).
Proof.
  intros Hr Hrun.
  pose proof (mined_block_verifies fuel r s addr b s' (reachable_pool_ok s Hr) Hrun)
    as Hv.
  apply mine_block_some in Hrun as (_ & _ & Htx & _ & _ & _ & _ & Hc & _).
  destruct (add_block_accepted s b Hv) as (_ & Hc' & _).
  unfold get_balance. rewrite Hc, Hc', fold_left_app. cbn [fold_left].
  unfold scan_block at 1. rewrite Htx. cbn [fold_left]. f_equal.
Qed.

End Invariants5470.

(** * The toy run of [Blockchain5470] and the Merkle root as a digest *)

Module Runs5470.
Import B5470 B5470Ext Invariants5470 Ledger5470.

Lemma mined_state_run :
  @mine_block Toy.b5470 5 Toy.run (start_mining (@init Toy.b5470)) "miner"
  = Some (Returned (Some ToyExt.mined_block, ToyExt.mined_state)).
Proof. vm_compute. reflexivity. Qed.

Lemma started_reachable : @reachable Toy.b5470 (start_mining (@init Toy.b5470)).
Proof. eapply rtc_l; [apply step_start | apply rtc_refl]. Qed.



Lemma mined_block_is_appended_witness :
  @verify_block Toy.b5470 ToyExt.mined_block = true
  /\ chain ToyExt.mined_state
     = (chain (start_mining (@init Toy.b5470)) ++ [ToyExt.mined_block])%list
  /\ best_work ToyExt.mined_state = work ToyExt.mined_block.
Proof.
  exact (@mined_block_is_appended Toy.b5470 5 Toy.run _ "miner" _ _
           started_reachable mined_state_run).
Defined.

Lemma difficulty_bounds_witness :
  1 <= difficulty_target
         (snd (@_add_block_to_chain Toy.b5470 (@init Toy.b5470) (Toy.loose_block 0))).
Proof.
  apply (proj1 (@difficulty_bounds Toy.b5470) (@init Toy.b5470) (Toy.loose_block 0)).
  cbn. lia.
Defined.


Lemma mined_block_credits_witness :
  get_balance ToyExt.mined_state "miner" = 50%Q.
Proof.
  rewrite (@mined_block_credits Toy.b5470 5 Toy.run _ "miner" _ _ "miner"
             started_reachable mined_state_run).
  reflexivity.
Defined.

Section Digest.
Variable sha : string -> string.
Hypothesis sha_digest : forall s, Hex.is_digest (sha s) = true.

Lemma pair_level_digests (hs : list string) :
  Forall (fun h => Hex.is_digest h = true) (Merkle.pair_level sha hs).
Proof.
  assert (Hgen : forall n l, (length l <= n)%nat ->
                 Forall (fun h => Hex.is_digest h = true) (Merkle.pair_level sha l)).
  { induction n as [|n IH]; intros [|x [|y l]] Hl; cbn in *; try constructor;
      try apply sha_digest; try lia.
    apply IH. lia. }
  exact (Hgen _ hs (Nat.le_refl _)).
Qed.

Lemma reduce_digests (hs : list string) :
  Forall (fun h => Hex.is_digest h = true) hs ->
  Forall (fun h => Hex.is_digest h = true) (Merkle.reduce sha hs).
Proof.
  funelim (Merkle.reduce sha hs); intros Hall.
  - constructor.
  - exact Hall.
  - match goal with
    | IH : _ -> Forall _ (Merkle.reduce sha (Merkle.next_level sha _)) |- _ =>
        apply IH
    end.
    apply pair_level_digests.
Qed.

Lemma root_digest (leaves : list string) :
  Forall (fun h => Hex.is_digest h = true) leaves ->
  Hex.is_digest (Merkle.root sha leaves) = true.
Proof.
  intros Hall. unfold Merkle.root.
  destruct leaves as [|a rest] eqn:Hl; [reflexivity|].
  rewrite <- Hl in *.
  destruct (MerkleFacts.reduce_singleton sha leaves ltac:(rewrite Hl; discriminate))
    as [h Hh].
  pose proof (reduce_digests leaves Hall) as Hred. rewrite Hh in *.
  now inversion Hred.
Qed.

End Digest.

(** X9. [Block.calculate_merkle_root] of [blockchain.py] always returns 64
    hexadecimal digits: the zero sentinel, a transaction hash, or a SHA-256
    digest. *)
Theorem merkle_root_is_digest `{Crypto} (txs : list Transaction) :
  Hex.is_digest (calculate_merkle_root txs) = true.
Proof.
  unfold calculate_merkle_root. apply root_digest; [apply sha256_hex_digest|].
  apply List.Forall_forall. intros h Hin. apply in_map_iff in Hin as [tx [<- _]].
  apply sha256_hex_digest.
Qed.

End Runs5470.

(** * More about [CoreNode] *)

Module NodeMore.
Import Node NodeExt NodeFacts ListFacts.

Section WithCrypto.
Context `{Crypto}.

Lemma pow_loop_spec fuel : forall b b',
  pow_loop fuel b = Some b' ->
  index b' = index b /\ transactions b' = transactions b
  /\ previous_hash b' = previous_hash b
  /\ Hex.startswith (hash b') "0000" = true.
Proof.
  induction fuel as [|fuel IH]; intros b b' Hrun; cbn [pow_loop] in Hrun.
  - destruct (Hex.startswith (hash b) "0000") eqn:Hz; [|discriminate].
    injection Hrun as <-. auto.
  - destruct (Hex.startswith (hash b) "0000") eqn:Hz.
    + injection Hrun as <-. auto.
    + apply IH in Hrun. exact Hrun.
Qed.

(** A returned block, spelled out. *)
Lemma node_mine_block_some fuel s t1 t2 b s' :
  mine_block fuel s t1 t2 = Some (Returned (Some b, s')) ->
  exists tip,
    List.last (map Some (blockchain s)) None = Some tip
    /\ index b = Z.of_nat (length (blockchain s))
    /\ previous_hash b = hash tip
    /\ Hex.startswith (hash b) "0000" = true
    /\ transactions b
       = mkTransaction "coinbase" (wallet_address s) (50 * 100000000) t1 0 "" ""
         :: firstn 10 (mempool s)
    /\ blockchain s' = blockchain s
    /\ utxo_set s' = utxo_set s
    /\ mempool s' = skipn 10 (mempool s).
Proof.
  unfold mine_block. intros Hrun.
  destruct (mempool s) as [|tx pool] eqn:Hpool; [discriminate|].
  destruct (List.last (map Some (blockchain s)) None) as [tip|]; [|discriminate].
  destruct (pow_loop _ _) as [nb|] eqn:Hpow; [|discriminate].
  injection Hrun as <- <-.
  apply pow_loop_spec in Hpow as (Hi & Ht & Hp & Hz).
  exists tip. cbn [index transactions previous_hash mkBlock] in Hi, Ht, Hp.
  repeat split; try assumption; try reflexivity.
  cbn [mempool set_mempool].
  apply (Ledger5470.remove_each_prefix Transaction_eqb
           Exclusivity.Transaction_eqb_refl 10 (tx :: pool)).
Qed.

Lemma snoc_index (c : list Block) (b' : Block) :
  (forall i b, nth_error c i = Some b -> index b = Z.of_nat i) ->
  index b' = Z.of_nat (length c) ->
  forall i b, nth_error (c ++ [b']) i = Some b -> index b = Z.of_nat i.
Proof.
  intros Hc Hb i b Hnth.
  destruct (Nat.lt_ge_cases i (length c)) as [Hlt|Hge].
  - rewrite nth_error_app1 in Hnth by lia. eauto.
  - assert (Hsome : nth_error (c ++ [b']) i <> None) by congruence.
    apply nth_error_Some in Hsome. rewrite length_app in Hsome. cbn in Hsome.
    assert (i = length c) by lia. subst i.
    rewrite nth_error_app2, Nat.sub_diag in Hnth by lia.
    now injection Hnth as <-.
Qed.

(** The tip's index is the chain length minus one when indices follow
    positions. *)
Lemma tip_index (c : list Block) (tip : Block) :
  (forall i b, nth_error c i = Some b -> index b = Z.of_nat i) ->
  List.last (map Some c) None = Some tip ->
  index tip + 1 = Z.of_nat (length c).
Proof.
  intros Hc Htip. rewrite last_some_nth in Htip.
  rewrite (Hc _ _ Htip).
  assert (Hsome : nth_error c (length c - 1) <> None) by congruence.
  apply nth_error_Some in Hsome. lia.
Qed.

Lemma add_block_index s b :
  (forall i x, nth_error (blockchain s) i = Some x -> index x = Z.of_nat i) ->
  blockchain s <> [] ->
  forall i x, nth_error (blockchain (add_block s b)) i = Some x -> index x = Z.of_nat i.
Proof.
  intros Hc Hne. destruct (add_block_effect s b) as [_ [-> | [Hval ->]]]; [exact Hc|].
  apply snoc_index; [exact Hc|].
  destruct (last_some_nonempty (blockchain s) Hne) as [tip Htip].
  destruct (validate_block_tip s b tip Htip Hval) as [[_ Hi] _].
  rewrite Hi. now apply tip_index.
Qed.

Lemma on_blocks_index s bs :
  blockchain s <> []
  /\ (forall i x, nth_error (blockchain s) i = Some x -> index x = Z.of_nat i) ->
  blockchain (on_blocks s bs) <> []
  /\ (forall i x, nth_error (blockchain (on_blocks s bs)) i = Some x ->
                  index x = Z.of_nat i).
Proof.
  unfold on_blocks. revert s.
  induction bs as [|b bs IH]; intros s [Hne Hc]; cbn [fold_left]; [auto|].
  apply IH. destruct (validate_block s b); [|auto].
  split; [now apply add_block_nonempty | now apply add_block_index].
Qed.

Lemma reachable_index :
  forall s, reachable s ->
  blockchain s <> []
  /\ (forall i x, nth_error (blockchain s) i = Some x -> index x = Z.of_nat i).
Proof.
  induction 1 as [address t1 t2|s b _ [Hne Hc]|s tx _ IH|s bs _ IH
                  |s fuel t1 t2 s' _ IH Hround|s _ IH|s _ IH].
  - split; [discriminate|]. intros [|[|i]] x Hx; cbn in Hx; try discriminate.
    now injection Hx as <-.
  - split; [now apply add_block_nonempty | now apply add_block_index].
  - unfold on_tx. destruct (validate_transaction tx); exact IH.
  - now apply on_blocks_index.
  - unfold mining_round in Hround.
    destruct (is_mining s && _); [|now injection Hround as <-].
    destruct (mine_block fuel s t1 t2) as [[[[nb|] s1]|e]|] eqn:Hmine;
      try discriminate; injection Hround as <-; auto.
    + apply mine_block_frame in Hmine. destruct IH as [Hne Hc].
      split; [apply add_block_nonempty | apply add_block_index];
        rewrite ?Hmine; assumption.
    + apply mine_block_frame in Hmine. now rewrite Hmine.
  - exact IH.
  - exact IH.
Qed.

(** The list filed under [a] after the transactions of a block were added. *)
Lemma utxo_fold_lookup (txs : list Transaction) :
  forall (u : gmap string (list Transaction)) (a : string),
    default [] (fold_left utxo_add txs u !! a)
    = (default [] (u !! a)
       ++ List.filter (fun tx => String.eqb (to_address tx) a) txs)%list.
Proof.
  induction txs as [|tx txs IH]; intros u a; cbn [fold_left List.filter].
  - now rewrite app_nil_r.
  - rewrite IH. unfold utxo_add.
    destruct (String.eqb_spec (to_address tx) a) as [->|Hne].
    + rewrite lookup_insert_eq. cbn [default from_option id].
      now rewrite <- app_assoc.
    + now rewrite lookup_insert_ne by exact Hne.
Qed.

Lemma fold_add_shift (zs : list Z) : forall k,
  fold_left Z.add zs k = k + fold_left Z.add zs 0.
Proof.
  induction zs as [|z zs IH]; intros k; cbn [fold_left]; [lia|].
  rewrite (IH (k + z)), (IH (0 + z)). lia.
Qed.

Lemma fold_amounts (l : list Transaction) : forall acc,
  fold_left (fun balance tx => balance + amount tx) l acc
  = acc + fold_left Z.add (map amount l) 0.
Proof.
  induction l as [|tx l IH]; intros acc; cbn [fold_left map]; [lia|].
  rewrite IH, (fold_add_shift _ (0 + amount tx)). lia.
Qed.

End WithCrypto.

(** X10. In every state of a node [blockchain[i].index == i], so the height
    it announces is the index of its tip. *)
Theorem node_indices `{Crypto} (s : CoreNode) :
  reachable s ->
  (forall i b, nth_error (blockchain s) i = Some b -> index b = Z.of_nat i)
  /\ exists tip, List.last (map Some (blockchain s)) None = Some tip
                 /\ best_height s = index tip.
Proof.
  intros Hr. destruct (reachable_index s Hr) as [Hne Hc].
  split; [exact Hc|].
  destruct (last_some_nonempty (blockchain s) Hne) as [tip Htip].
  exists tip. split; [exact Htip|].
  pose proof (tip_index _ _ Hc Htip). unfold best_height. lia.
Qed.

(** X11. [mine_block] of a node takes the first ten pooled transactions in
    insertion order, behind the coinbase, and removes exactly those from the
    pool. *)
Theorem node_mine_takes_first_ten `{Crypto} fuel (s : CoreNode) t1 t2 b s' :
  mine_block fuel s t1 t2 = Some (Returned (Some b, s')) ->
  transactions b
  = mkTransaction "coinbase" (wallet_address s) (50 * 100000000) t1 0 "" ""
    :: firstn 10 (mempool s)
  /\ mempool s' = skipn 10 (mempool s)
  /\ blockchain s' = blockchain s.
Proof.
  intros Hrun. apply node_mine_block_some in Hrun
    as (tip & _ & _ & _ & _ & Htx & Hc & _ & Hm). auto.
Qed.


(** X13. An accepted block raises the balance [get_balance] reports for an
    address by the amounts of the block's transactions addressed to it;
    nothing is ever taken from a sender, and a refused block changes
    nothing. *)
Theorem utxo_balance_only_credits `{Crypto} (s : CoreNode) (b : Block) (a : string) :
  (validate_block s b = true ->
   get_balance (add_block s b) a
   = get_balance s a
     + fold_left Z.add
         (map amount (List.filter (fun tx => String.eqb (to_address tx) a)
                                 (transactions b)))
         0)
  /\ (validate_block s b = false -> add_block s b = s).
Proof.
  split; intros Hval; unfold add_block; rewrite Hval; [|reflexivity].
  unfold get_balance, update_utxo_set.
  cbn [utxo_set set_utxo_set set_blockchain].
  rewrite utxo_fold_lookup, fold_left_app.
  now rewrite fold_amounts.
Qed.

End NodeMore.

(** * The [MSG_GETBLOCKS] answer and runs of a node *)

Module NodeRuns.
Import Node NodeExt NodeMore.

Lemma skipn_nth {A} (c : list A) : forall k x,
  nth_error c k = Some x -> skipn k c = x :: skipn (S k) c.
Proof.
  induction c as [|y c IH]; intros [|k] x Hx; cbn in Hx; try discriminate.
  - now injection Hx as <-.
  - cbn [skipn]. rewrite (IH k x Hx). reflexivity.
Qed.

Lemma py_index_nonneg {A} (l : list A) (i : Z) :
  0 <= i < Z.of_nat (length l) ->
  exists x, nth_error l (Z.to_nat i) = Some x /\ py_index l i = Returned x.
Proof.
  intros Hi. unfold py_index.
  rewrite (proj2 (Z.ltb_ge i 0)) by lia.
  rewrite (proj2 (Z.ltb_ge i 0)) by lia.
  rewrite (proj2 (Z.leb_gt _ _)) by lia. cbn [orb].
  destruct (nth_error l (Z.to_nat i)) as [x|] eqn:Hx; [eauto|].
  apply nth_error_None in Hx. lia.
Qed.

Lemma py_index_negative {A} (l : list A) (i : Z) :
  - Z.of_nat (length l) <= i < 0 ->
  exists x, nth_error l (Z.to_nat (i + Z.of_nat (length l))) = Some x
            /\ py_index l i = Returned x.
Proof.
  intros Hi. unfold py_index.
  rewrite (proj2 (Z.ltb_lt i 0)) by lia.
  rewrite (proj2 (Z.ltb_ge _ 0)) by lia.
  rewrite (proj2 (Z.leb_gt _ _)) by lia. cbn [orb].
  destruct (nth_error l _) as [x|] eqn:Hx; [eauto|].
  apply nth_error_None in Hx. lia.
Qed.

Lemma py_index_below {A} (l : list A) (i : Z) :
  i < - Z.of_nat (length l) -> py_index l i = Raised "IndexError".
Proof.
  intros Hi. unfold py_index.
  rewrite (proj2 (Z.ltb_lt i 0)) by lia.
  now rewrite (proj2 (Z.ltb_lt _ 0)) by lia.
Qed.

(** Indices [lo, lo + n) inside the list. *)
Lemma collect_inside (c : list Block) : forall n lo acc,
  0 <= lo -> lo + Z.of_nat n <= Z.of_nat (length c) ->
  collect c (range_from lo n) acc
  = Returned (acc ++ firstn n (skipn (Z.to_nat lo) c))%list.
Proof.
  induction n as [|n IH]; intros lo acc Hlo Hhi; cbn [range_from collect].
  - cbn [firstn]. now rewrite app_nil_r.
  - destruct (py_index_nonneg c lo ltac:(lia)) as (x & Hx & ->).
    rewrite IH by lia.
    rewrite (skipn_nth c _ x Hx). cbn [firstn].
    replace (Z.to_nat (lo + 1)) with (S (Z.to_nat lo)) by lia.
    now rewrite <- app_assoc.
Qed.

(** Negative indices [lo, lo + n) with [lo + n <= 0]: the tail. *)
Lemma collect_wrapped (c : list Block) : forall n lo acc,
  - Z.of_nat (length c) <= lo -> lo + Z.of_nat n <= 0 ->
  collect c (range_from lo n) acc
  = Returned (acc ++ firstn n (skipn (Z.to_nat (lo + Z.of_nat (length c))) c))%list.
Proof.
  induction n as [|n IH]; intros lo acc Hlo Hhi; cbn [range_from collect].
  - cbn [firstn]. now rewrite app_nil_r.
  - destruct (py_index_negative c lo ltac:(lia)) as (x & Hx & ->).
    rewrite IH by lia.
    rewrite (skipn_nth c _ x Hx). cbn [firstn].
    replace (Z.to_nat (lo + 1 + Z.of_nat (length c)))
      with (S (Z.to_nat (lo + Z.of_nat (length c)))) by lia.
    now rewrite <- app_assoc.
Qed.

Lemma range_from_app : forall a b lo,
  range_from lo (a + b) = (range_from lo a ++ range_from (lo + Z.of_nat a) b)%list.
Proof.
  induction a as [|a IH]; intros b lo.
  - cbn [range_from Nat.add app]. now rewrite Z.add_0_r.
  - cbn [range_from Nat.add app]. rewrite IH. do 3 f_equal. lia.
Qed.

Lemma collect_app (c : list Block) : forall l1 l2 acc acc',
  collect c l1 acc = Returned acc' ->
  collect c (l1 ++ l2) acc = collect c l2 acc'.
Proof.
  induction l1 as [|i l1 IH]; intros l2 acc acc' Hrun; cbn [collect app] in *.
  - now injection Hrun as <-.
  - destruct (py_index c i); [|discriminate]. now apply IH.
Qed.

(** X14. The blocks sent in answer to [MSG_GETBLOCKS].  From a start height
    [>= 0]: at most 500 blocks in chain order from that height.  A negative
    start height is read as a Python index from the end: the answer starts
    [-start] blocks before the tip, holds 500 blocks if that many remain
    before the tip is passed, and otherwise runs to the tip and goes on with
    the chain from its beginning; below [-len] the handler raises
    [IndexError]. *)
Theorem getblocks_answer (s : CoreNode) (start : Z) :
  (0 <= start ->
   getblocks s start = Returned (firstn 500 (skipn (Z.to_nat start) (blockchain s))))
  /\ (- Z.of_nat (length (blockchain s)) <= start -> start + 500 <= 0 ->
      getblocks s start
      = Returned (firstn 500
                    (skipn (Z.to_nat (start + Z.of_nat (length (blockchain s))))
                           (blockchain s))))
  /\ (- Z.of_nat (length (blockchain s)) <= start < 0 -> 0 < start + 500 ->
      getblocks s start
      = Returned (skipn (Z.to_nat (start + Z.of_nat (length (blockchain s))))
                        (blockchain s)
                  ++ firstn (Z.to_nat (Z.min (start + 500)
                                             (Z.of_nat (length (blockchain s)))))
                            (blockchain s))%list)
  /\ (start < - Z.of_nat (length (blockchain s)) ->
      getblocks s start = Raised "IndexError").
Proof.
  unfold getblocks, py_range. generalize (blockchain s) as c. intros c.
  split; [|split; [|split]].
  - intros Hs.
    destruct (Z.le_gt_cases (Z.of_nat (length c)) start) as [Hout|Hin].
    + replace (Z.to_nat (Z.min (start + 500) (Z.of_nat (length c)) - start))
        with 0%nat by lia.
      cbn [range_from collect].
      rewrite skipn_all2 by lia. now destruct (500%nat).
    + rewrite collect_inside by lia. cbn [app]. f_equal.
      destruct (Z.le_gt_cases (start + 500) (Z.of_nat (length c))) as [Hfull|Hshort].
      * f_equal. lia.
      * replace (Z.to_nat (Z.min (start + 500) (Z.of_nat (length c)) - start))
          with (length (skipn (Z.to_nat start) c))
          by (rewrite length_skipn; lia).
        rewrite firstn_all. symmetry. apply firstn_all2.
        rewrite length_skipn. lia.
  - intros Hlo Hhi.
    replace (Z.to_nat (Z.min (start + 500) (Z.of_nat (length c)) - start))
      with 500%nat by lia.
    now rewrite collect_wrapped by lia.
  - intros Hs Hhi.
    replace (Z.to_nat (Z.min (start + 500) (Z.of_nat (length c)) - start))
      with (Z.to_nat (- start)
            + Z.to_nat (Z.min (start + 500) (Z.of_nat (length c))))%nat by lia.
    rewrite range_from_app.
    erewrite collect_app; [| apply collect_wrapped; lia ].
    replace (start + Z.of_nat (Z.to_nat (- start))) with 0 by lia.
    rewrite collect_inside by lia.
    cbn [app Z.to_nat skipn]. f_equal. f_equal.
    replace (Z.to_nat (- start))
      with (length (skipn (Z.to_nat (start + Z.of_nat (length c))) c))
      by (rewrite length_skipn; lia).
    apply firstn_all.
  - intros Hs.
    assert (Hn : exists n,
               Z.to_nat (Z.min (start + 500) (Z.of_nat (length c)) - start) = S n).
    { exists (Z.to_nat (Z.min (start + 500) (Z.of_nat (length c)) - start) - 1)%nat.
      lia. }
    destruct Hn as [n ->]. cbn [range_from collect].
    now rewrite py_index_below by lia.
Qed.

Lemma getblocks_answer_witness :
  getblocks ToyExt.node_ready 0 = Returned (blockchain ToyExt.node_ready)
  /\ getblocks ToyExt.node_ready (-1)
     = Returned (blockchain ToyExt.node_ready ++ blockchain ToyExt.node_ready)%list
  /\ getblocks ToyExt.node_ready (-2) = Raised "IndexError".
Proof.
  split; [|split].
  - rewrite (proj1 (getblocks_answer ToyExt.node_ready 0) ltac:(lia)). reflexivity.
  - rewrite (proj1 (proj2 (proj2 (getblocks_answer ToyExt.node_ready (-1)))))
      by (vm_compute; intuition discriminate).
    reflexivity.
  - apply (proj2 (proj2 (proj2 (getblocks_answer ToyExt.node_ready (-2))))).
    vm_compute. reflexivity.
Defined.

Lemma node_mined_run :
  @mine_block ToyExt.node_crypto 3 ToyExt.node_ready 0 0
  = Some (Returned (Some ToyExt.node_mined_block, ToyExt.node_mined_state)).
Proof. vm_compute. reflexivity. Qed.

Lemma node_ready_reachable : @reachable ToyExt.node_crypto ToyExt.node_ready.
Proof. apply reach_start, reach_tx, reach_init. Qed.

Lemma node_indices_witness :
  exists tip,
    List.last (map Some (blockchain ToyExt.node_ready)) None = Some tip
    /\ best_height ToyExt.node_ready = index tip.
Proof.
  exact (proj2 (@node_indices ToyExt.node_crypto ToyExt.node_ready node_ready_reachable)).
Defined.

Lemma node_mine_takes_first_ten_witness :
  mempool ToyExt.node_mined_state = []
  /\ length (transactions ToyExt.node_mined_block) = 2%nat.
Proof.
  destruct (@node_mine_takes_first_ten ToyExt.node_crypto 3 ToyExt.node_ready 0 0 _ _
              node_mined_run) as (Htx & Hm & _).
  split; [exact Hm | now rewrite Htx].
Defined.


Lemma utxo_balance_only_credits_witness :
  get_balance (add_block ToyExt.node_mined_state ToyExt.node_mined_block) "bob" = 5
  /\ get_balance (add_block ToyExt.node_mined_state ToyExt.node_mined_block) "alice" = 0.
Proof.
  split.
  - rewrite (proj1 (@utxo_balance_only_credits ToyExt.node_crypto ToyExt.node_mined_state
                      ToyExt.node_mined_block "bob"))
      by (vm_compute; reflexivity).
    vm_compute. reflexivity.
  - rewrite (proj1 (@utxo_balance_only_credits ToyExt.node_crypto ToyExt.node_mined_state
                      ToyExt.node_mined_block "alice"))
      by (vm_compute; reflexivity).
    vm_compute. reflexivity.
Defined.

End NodeRuns.

(** * [RealBlockchain.is_chain_valid] *)

Module RealMore.
Import Real RealExt ListFacts.

Section WithCrypto.
Context `{Crypto}.







End WithCrypto.






End RealMore.

(** * More about the synced [Blockchain] *)

Module SyncedMore.
Import Synced SyncedExt ListFacts.

(** ** Sums over the balance map *)



Lemma get0_insert (m : gmap string Z) (k k' : string) (v : Z) :
  get0 (<[k := v]> m) k' = if String.eqb k' k then v else get0 m k'.
Proof.
  unfold get0. destruct (String.eqb_spec k' k) as [->|Hne].
  - now rewrite lookup_insert_eq.
  - rewrite lookup_insert_ne by congruence. reflexivity.
Qed.

Lemma minted_shift (txs : list AnyTx) : forall a,
  fold_left (fun acc t =>
               match t with
               | Plain tx => if is_privileged tx then acc + amount tx else acc
               | Shielded _ => acc
               end) txs a
  = a + minted txs.
Proof.
  unfold minted. induction txs as [|t txs IH]; intros a; cbn [fold_left]; [lia|].
  destruct t as [tx|stx]; [destruct (is_privileged tx)|].
  - rewrite (IH (a + amount tx)), (IH (0 + amount tx)). lia.
  - apply IH.
  - apply IH.
Qed.


Lemma minted_app (l1 l2 : list AnyTx) :
  minted (l1 ++ l2) = minted l1 + minted l2.
Proof.
  unfold minted at 1. rewrite fold_left_app, minted_shift. reflexivity.
Qed.

Section WithConfig.
Context `{Config}.




(** The two outcomes of [add_block]. *)
Lemma add_block_cases s b ok s' :
  add_block s b = Returned (ok, s') ->
  (ok = false /\ s' = s)
  \/ (ok = true
      /\ exists prev,
          List.last (map Some (chain s)) None = Some prev
          /\ sealed prev b
          /\ chain s' = (chain s ++ [b])%list
          /\ (balances s', nonces s')
             = fold_left (apply_tx (miner_address s)) (transactions b)
                         (balances s, nonces s)
          /\ pending_transactions s' = pending_transactions s
          /\ miner_address s' = miner_address s).
Proof.
  unfold add_block. intros Hrun.
  destruct (List.last (map Some (chain s)) None) as [prev|]; [|discriminate].
  destruct (String.eqb_spec (previous_hash b) (hash prev)) as [Hp|_];
    cbn [negb] in Hrun; [|injection Hrun as <- <-; auto].
  destruct (String.eqb_spec (hash b) (calculate_hash b)) as [Hh|_];
    cbn [negb] in Hrun; [|injection Hrun as <- <-; auto].
  destruct (Hex.startswith (hash b) (Hex.zeros POW_DIFFICULTY)) eqn:Hz;
    cbn [negb] in Hrun; [|injection Hrun as <- <-; auto].
  destruct (fold_left _ _ _) as [bal non] eqn:Hfold.
  injection Hrun as <- <-. right. split; [reflexivity|].
  exists prev. unfold sealed. cbn. repeat split; auto.
Qed.

Lemma proof_of_work_sealed fuel : forall b b',
  proof_of_work fuel b = Some b' ->
  transactions b' = transactions b /\ previous_hash b' = previous_hash b
  /\ index b' = index b
  /\ hash b' = calculate_hash b'
  /\ Hex.startswith (hash b') (Hex.zeros POW_DIFFICULTY) = true.
Proof.
  induction fuel as [|fuel IH]; intros b b' Hrun; cbn [proof_of_work] in Hrun.
  - discriminate.
  - destruct (Hex.startswith _ _) eqn:Hz.
    + injection Hrun as <-. repeat split; try reflexivity. exact Hz.
    + apply IH in Hrun. exact Hrun.
Qed.

(** [mine_once], spelled out: the block it builds passes every gate of
    [add_block]. *)
Lemma mine_once_effect fuel s t1 t2 r s' :
  mine_once fuel s t1 t2 = Some (Returned (r, s')) ->
  exists prev newb coinbase,
    List.last (map Some (chain s)) None = Some prev
    /\ sealed prev newb
    /\ index newb = index prev + 1
    /\ transactions newb = Plain coinbase :: pending_transactions s
    /\ from_address coinbase = "system"
    /\ to_address coinbase = miner_address s
    /\ amount coinbase = r
    /\ chain s' = (chain s ++ [newb])%list
    /\ (balances s', nonces s')
       = fold_left (apply_tx (miner_address s)) (transactions newb)
                   (balances s, nonces s)
    /\ pending_transactions s' = []
    /\ miner_address s' = miner_address s.
Proof.
  unfold mine_once. intros Hrun.
  destruct (List.last (map Some (chain s)) None) as [prev|] eqn:Hprev; [|discriminate].
  destruct (get_block_reward (index prev + 1)) as [rw|e]; [|discriminate].
  destruct (proof_of_work _ _) as [newb|] eqn:Hpow; [|discriminate].
  apply proof_of_work_sealed in Hpow as (Htxs & Hprevh & Hidx & Hhash & Hzeros).
  cbn [index transactions previous_hash set_hash] in Htxs, Hprevh, Hidx.
  unfold add_block in Hrun. cbn [chain] in Hrun. rewrite Hprev in Hrun.
  rewrite Hprevh, String.eqb_refl, <- Hhash, String.eqb_refl, Hzeros in Hrun.
  cbn [negb miner_address balances nonces pending_transactions] in Hrun.
  destruct (fold_left _ _ _) as [bal non] eqn:Hfold.
  injection Hrun as -> <-.
  cbn [chain balances nonces pending_transactions miner_address].
  exists prev, newb. eexists.
  split; [reflexivity|]. split; [repeat split; assumption|].
  split; [exact Hidx|]. split; [exact Htxs|].
  cbn [from_address to_address amount]. repeat split. now symmetry.
Qed.

Context `{Validation}.

(** What one call does to the chain and the two maps. *)
Lemma step_effect s s' :
  step s s' ->
  miner_address s' = miner_address s
  /\ ((chain s' = chain s /\ balances s' = balances s /\ nonces s' = nonces s)
      \/ exists prev b,
          List.last (map Some (chain s)) None = Some prev
          /\ sealed prev b
          /\ chain s' = (chain s ++ [b])%list
          /\ (balances s', nonces s')
             = fold_left (apply_tx (miner_address s)) (transactions b)
                         (balances s, nonces s)).
Proof.
  intros Hstep.
  destruct Hstep as [s0 b ok s1 Hadd|s0 fuel t1 t2 r s1 Hmine|s0 tx|s0 t].
  - apply add_block_cases in Hadd
      as [[_ ->] | (_ & prev & Hl & Hs & Hc & Hb & _ & Hm)].
    + split; [reflexivity|]. left. auto.
    + split; [exact Hm|]. right. exists prev, b. auto.
  - apply mine_once_effect in Hmine
      as (prev & newb & cb & Hl & Hs & _ & _ & _ & _ & _ & Hc & Hb & _ & Hm).
    split; [exact Hm|]. right. exists prev, newb. auto.
  - unfold post_tx. destruct (is_valid_transaction s0 (Plain tx)); cbn; auto.
  - cbn. auto.
Qed.

Lemma recompute_fields (s0 : Blockchain) :
  chain (_recompute_balances_and_nonces s0) = chain s0
  /\ miner_address (_recompute_balances_and_nonces s0) = miner_address s0
  /\ (balances (_recompute_balances_and_nonces s0),
      nonces (_recompute_balances_and_nonces s0))
     = fold_left (fun st b =>
                    fold_left (apply_tx (miner_address s0)) (transactions b) st)
                 (chain s0) (∅, ∅).
Proof.
  unfold _recompute_balances_and_nonces.
  destruct (fold_left _ (chain s0) _) as [bal non]. cbn. auto.
Qed.



End WithConfig.

(** ** The private notes *)

Lemma sum_shift (l : list Z) : forall a, fold_left Z.add l a = a + fold_left Z.add l 0.
Proof.
  induction l as [|x l IH]; intros a; cbn [fold_left]; [lia|].
  rewrite (IH (a + x)), (IH (0 + x)). lia.
Qed.

Lemma private_balance_cons (n : PrivateNote) (rest : list PrivateNote) (o : string) :
  private_balance (n :: rest) o
  = (if unspent_of o n then value n else 0) + private_balance rest o.
Proof.
  unfold private_balance. cbn [List.filter].
  destruct (unspent_of o n); [|lia].
  cbn [map fold_left]. rewrite sum_shift. lia.
Qed.

Lemma private_balance_app (l1 l2 : list PrivateNote) (o : string) :
  private_balance (l1 ++ l2) o = private_balance l1 o + private_balance l2 o.
Proof.
  induction l1 as [|n l1 IH]; cbn [app].
  - unfold private_balance at 2. cbn. lia.
  - rewrite !private_balance_cons, IH. lia.
Qed.

Lemma unspent_of_mark_spent (o : string) (n : PrivateNote) :
  unspent_of o (mark_spent n) = false.
Proof. unfold unspent_of, mark_spent. cbn. apply andb_false_r. Qed.

Lemma unspent_of_other (o o' : string) (n : PrivateNote) :
  o' <> o -> unspent_of o n = true ->
  unspent_of o' n = false /\ unspent_of o' (mark_spent n) = false.
Proof.
  unfold unspent_of, mark_spent. cbn. intros Hne Hu.
  apply andb_true_iff in Hu as [Ho _]. apply String.eqb_eq in Ho.
  destruct (String.eqb_spec (owner n) o') as [He|_]; [congruence|].
  split; reflexivity.
Qed.

(** What the loop of [spend_private] leaves behind. *)
Lemma spend_loop_spec (o : string) (notes : list PrivateNote) : forall needed,
  length (snd (spend_loop o needed notes)) = length notes
  /\ (forall o', o' <> o ->
        private_balance (snd (spend_loop o needed notes)) o'
        = private_balance notes o')
  /\ private_balance (snd (spend_loop o needed notes)) o
     = private_balance notes o - (needed - fst (spend_loop o needed notes))
  /\ (0 < fst (spend_loop o needed notes) ->
      private_balance (snd (spend_loop o needed notes)) o = 0).
Proof.
  induction notes as [|n rest IH]; intros needed; cbn [spend_loop].
  - cbn [fst snd length]. unfold private_balance. cbn.
    repeat split; intros; lia.
  - destruct (unspent_of o n) eqn:Hu.
    + destruct (Z.leb_spec needed 0) as [Hle|Hgt].
      * cbn [fst snd]. repeat split; intros; lia.
      * specialize (IH (needed - value n)).
        destruct (spend_loop o (needed - value n) rest) as [k rest'].
        cbn [fst snd length] in *.
        destruct IH as (Hlen & Hother & Hacc & Hzero).
        split; [lia|]. split; [|split].
        -- intros o' Hne. rewrite !private_balance_cons.
           destruct (unspent_of_other o o' n Hne Hu) as [-> ->].
           now rewrite Hother.
        -- rewrite !private_balance_cons, unspent_of_mark_spent, Hu, Hacc. lia.
        -- intros Hk. rewrite private_balance_cons, unspent_of_mark_spent.
           rewrite Hzero by exact Hk. lia.
    + specialize (IH needed).
      destruct (spend_loop o needed rest) as [k rest'].
      cbn [fst snd length] in *.
      destruct IH as (Hlen & Hother & Hacc & Hzero).
      split; [lia|]. split; [|split].
      * intros o' Hne. rewrite !private_balance_cons. now rewrite Hother.
      * rewrite !private_balance_cons, Hu, Hacc. lia.
      * intros Hk. rewrite private_balance_cons, Hu.
        rewrite Hzero by exact Hk. lia.
Qed.

Lemma spend_private_unfold (notes : list PrivateNote) (o : string) (amount : Z) :
  spend_private notes o amount
  = (fst (spend_loop o amount notes) <=? 0, snd (spend_loop o amount notes)).
Proof. unfold spend_private. now destruct (spend_loop o amount notes). Qed.

(** X17. [spend_private] marks whole notes of the owner as spent, in list
    order, until the amount is covered: no note is added or removed and the
    notes of other owners keep their balance.  When it returns [True] the
    owner's private balance has fallen by at least the amount (the excess
    of the last note is not given back); when it returns [False] every
    unspent note of the owner has been marked spent all the same, and the
    balance was below the amount.  It returns [True] whenever the balance
    covers the amount. *)
Theorem spend_private_accounting (notes : list PrivateNote) (o : string) (amount : Z) :
  length (snd (spend_private notes o amount)) = length notes
  /\ (forall o', o' <> o ->
        private_balance (snd (spend_private notes o amount)) o'
        = private_balance notes o')
  /\ (fst (spend_private notes o amount) = true ->
      private_balance (snd (spend_private notes o amount)) o
      <= private_balance notes o - amount)
  /\ (fst (spend_private notes o amount) = false ->
      private_balance (snd (spend_private notes o amount)) o = 0
      /\ private_balance notes o < amount)
  /\ (amount <= private_balance notes o ->
      fst (spend_private notes o amount) = true).
Proof.
  rewrite spend_private_unfold. cbn [fst snd].
  destruct (spend_loop_spec o notes amount) as (Hlen & Hother & Hacc & Hzero).
  split; [exact Hlen|]. split; [exact Hother|]. split; [|split].
  - intros Hok. apply Z.leb_le in Hok. lia.
  - intros Hok. apply Z.leb_gt in Hok. specialize (Hzero Hok). lia.
  - intros Hcover. apply Z.leb_le.
    destruct (Z.le_gt_cases (fst (spend_loop o amount notes)) 0) as [Hle|Hgt];
      [exact Hle|].
    specialize (Hzero Hgt). lia.
Qed.

(** Spending 10 from notes of 100 and 30 uses up the note of 100. *)
Lemma spend_private_accounting_witness :
  fst (spend_private ToyExt.notes "alice" 10) = true
  /\ private_balance (snd (spend_private ToyExt.notes "alice" 10)) "alice"
     <= private_balance ToyExt.notes "alice" - 10
  /\ private_balance (snd (spend_private ToyExt.notes "alice" 10)) "bob"
     = private_balance ToyExt.notes "bob".
Proof.
  pose proof (spend_private_accounting ToyExt.notes "alice" 10)
    as (_ & Hother & Hok & _ & Hcover).
  assert (Htrue : fst (spend_private ToyExt.notes "alice" 10) = true)
    by (apply Hcover; vm_compute; discriminate).
  split; [exact Htrue|]. split; [exact (Hok Htrue)|].
  apply Hother. discriminate.
Defined.

(** X18. A note added by [add_private_note] counts in full towards its
    owner's private balance and towards nobody else's. *)
Theorem add_private_note_balance (notes : list PrivateNote) (o c o' : string)
        (v now : Z) :
  private_balance (add_private_note notes o c v now) o'
  = private_balance notes o' + (if String.eqb o o' then v else 0).
Proof.
  unfold add_private_note. rewrite private_balance_app, private_balance_cons.
  unfold unspent_of. cbn [owner spent value negb]. rewrite andb_true_r.
  replace (private_balance [] o') with 0 by reflexivity.
  destruct (String.eqb o o'); lia.
Qed.

(** X19. The unshield request succeeds exactly when the miner's private
    balance covers the amount (its second failure branch is never taken).
    A refused request changes neither the ledger nor the notes.  A granted
    one queues one ["system"] transfer of exactly the amount to the miner,
    while the private balance falls by at least the amount. *)
Theorem unshield_outcome `{Config} (s : Blockchain) (notes : list PrivateNote)
        (amount now : Z) ok s' notes' :
  post_unshield s notes amount now = (ok, s', notes') ->
  ok = (amount <=? private_balance notes (miner_address s))
  /\ (ok = false -> s' = s /\ notes' = notes)
  /\ (ok = true ->
      exists tx,
        pending_transactions s' = (pending_transactions s ++ [Plain tx])%list
        /\ from_address tx = "system"
        /\ to_address tx = miner_address s
        /\ Synced.amount tx = amount
        /\ chain s' = chain s /\ balances s' = balances s
        /\ private_balance notes' (miner_address s)
           <= private_balance notes (miner_address s) - amount).
Proof.
  unfold post_unshield. intros Hrun.
  rewrite spend_private_unfold in Hrun.
  destruct (spend_loop_spec (miner_address s) notes amount) as (_ & _ & Hacc & Hzero).
  destruct (Z.ltb_spec (private_balance notes (miner_address s)) amount) as [Hlt|Hge].
  - injection Hrun as <- <- <-.
    split; [symmetry; apply Z.leb_gt; exact Hlt|].
    split; [auto | discriminate].
  - destruct (Z.leb_spec (fst (spend_loop (miner_address s) amount notes)) 0)
      as [Hle|Hgt]; [|specialize (Hzero Hgt); lia].
    cbn [negb] in Hrun. injection Hrun as <- <- <-.
    split; [symmetry; apply Z.leb_le; exact Hge|].
    split; [discriminate|]. intros _.
    eexists. split; [reflexivity|]. cbn. repeat split. lia.
Qed.

Lemma unshield_outcome_witness :
  let s := ToyExt.synced_start in
  let r := @post_unshield Toy.synced s [ToyExt.note "miner" 100] 10 0 in
  fst (fst r) = true
  /\ private_balance (snd r) "miner" <= 100 - 10.
Proof.
  cbv zeta.
  destruct (@post_unshield Toy.synced ToyExt.synced_start [ToyExt.note "miner" 100] 10 0)
    as [[ok s'] notes'] eqn:Hrun.
  destruct (@unshield_outcome Toy.synced _ _ _ _ _ _ _ Hrun) as (Hok & _ & Hgrant).
  cbn [fst snd].
  assert (Htrue : ok = true) by (rewrite Hok; vm_compute; reflexivity).
  split; [exact Htrue|].
  destruct (Hgrant Htrue) as (tx & _ & _ & _ & _ & _ & _ & Hbal).
  exact Hbal.
Defined.

(** ** The ledger *)


Lemma synced_posted_reachable :
  @reachable Toy.synced ToyExt.validation ToyExt.synced_posted.
Proof.
  exists "miner", 0, 0. eapply rtc_l; [|apply rtc_refl].
  apply (@step_post Toy.synced ToyExt.validation).
Defined.

Lemma synced_mined_run :
  @mine_once Toy.synced 1 ToyExt.synced_posted 0 0
  = Some (Returned (5000000000, ToyExt.synced_mined)).
Proof. vm_compute. reflexivity. Qed.

Lemma synced_mined_reachable :
  @reachable Toy.synced ToyExt.validation ToyExt.synced_mined.
Proof.
  exists "miner", 0, 0.
  eapply rtc_l; [apply (@step_post Toy.synced ToyExt.validation _ ToyExt.system_credit)|].
  eapply rtc_l; [|apply rtc_refl].
  eapply (@step_mine Toy.synced ToyExt.validation). exact synced_mined_run.
Defined.




(** X22. The chain is never empty, and every block after the first names the
    stored hash of its predecessor, stores the hash of its own fields, and
    has [POW_DIFFICULTY] leading zeros. *)
Theorem chain_sealed `{Config} `{Validation} (s : Blockchain) :
  reachable s -> chain s <> [] /\ adjacent sealed (chain s).
Proof.
  intros (miner & t1 & t2 & Hsteps).
  apply (rtc_ind_r (R := step)
           (fun st => chain st <> [] /\ adjacent sealed (chain st))
           (init miner t1 t2)); [ | | exact Hsteps].
  - unfold init.
    match goal with
    | |- context [_recompute_balances_and_nonces ?x] =>
        destruct (recompute_fields x) as (Hc & _)
    end.
    rewrite Hc. cbn [chain].
    split; [discriminate | apply adjacent_single].
  - intros s1 s2 _ Hstep [Hne Hadj].
    apply step_effect in Hstep as [_ [(Hc & _) | (prev & b & Hl & Hs & Hc & _)]].
    + now rewrite Hc.
    + rewrite Hc. split; [now destruct (chain s1)|].
      apply adjacent_snoc; [exact Hadj|].
      intros p Hp. rewrite Hl in Hp. now injection Hp as <-.
Qed.

Lemma chain_sealed_witness :
  length (chain ToyExt.synced_mined) = 2%nat
  /\ adjacent (@sealed Toy.synced) (chain ToyExt.synced_mined).
Proof.
  split; [vm_compute; reflexivity|].
  apply (@chain_sealed Toy.synced ToyExt.validation).
  exact synced_mined_reachable.
Defined.

(** X23. A transfer whose sender field is ["system"] or ["genesis"] is
    queued by [/tx] without the chain id, signature, balance, nonce and
    anomaly checks, and the next mined block adds its amount to the
    recipient's balance (on top of the reward, if the recipient is the
    miner). *)
Theorem system_sender_unchecked `{Config} `{Validation} fuel (s : Blockchain)
        (tx : Transaction) t1 t2 r s' :
  is_privileged tx = true ->
  pending_transactions s = [] ->
  mine_once fuel (snd (post_tx s tx)) t1 t2 = Some (Returned (r, s')) ->
  fst (post_tx s tx) = true
  /\ get0 (balances s') (to_address tx)
     = get0 (balances s) (to_address tx) + amount tx
       + (if String.eqb (to_address tx) (miner_address s) then r else 0).
Proof.
  intros Hpriv Hpend Hmine. unfold post_tx in *.
  cbn [is_valid_transaction] in *. rewrite Hpriv in *. cbn [fst snd] in *.
  split; [reflexivity|].
  apply mine_once_effect in Hmine
    as (prev & newb & cb & _ & _ & _ & Htxs & Hfrom & Hto & Hamt & _ & Hb & _).
  cbn [set_pending pending_transactions balances nonces miner_address] in Htxs, Hb, Hto.
  rewrite Hpend in Htxs. cbn [app] in Htxs. rewrite Htxs in Hb.
  assert (Hcb : is_privileged cb = true)
    by (unfold is_privileged; rewrite Hfrom; reflexivity).
  cbn [fold_left] in Hb. unfold apply_tx at 2 in Hb. rewrite Hcb in Hb.
  unfold apply_tx in Hb. rewrite Hpriv in Hb. injection Hb as Hb _.
  rewrite Hb, Hto, Hamt, !get0_insert, String.eqb_refl.
  destruct (String.eqb_spec (to_address tx) (miner_address s)) as [->|_]; lia.
Qed.

Lemma system_sender_unchecked_witness :
  @is_valid_transaction Toy.synced ToyExt.validation ToyExt.synced_start
     (Plain ToyExt.system_credit) = true
  /\ get0 (balances ToyExt.synced_mined) "mallory" = 1000.
Proof.
  destruct (@system_sender_unchecked Toy.synced ToyExt.validation 1
              ToyExt.synced_start ToyExt.system_credit 0 0 5000000000
              ToyExt.synced_mined)
    as [Hpost Hbal];
    [reflexivity | reflexivity | exact synced_mined_run |].
  split; [vm_compute; reflexivity|].
  eapply eq_trans; [exact Hbal|]. vm_compute. reflexivity.
Defined.

End SyncedMore.
